(** * percache: a persistent cache for the results of callables

    A shallow embedding of [percache.py] and the properties of its
    [Cache.check] wrapper, [Cache.clear], [Cache._stats] and the command
    line front end [_main].

    Conventions of the model:
    - a Python 2 [str] is a Rocq [string] (a sequence of 8-bit characters);
    - the shelf ([shelve.open]) is a finite map from [str] keys to Python
      objects, [gmap string pyobj];
    - numbers ([time.time()], [maxage], ages) are integers of a fixed clock
      resolution; only their order and their differences matter here;
    - an operation that may raise returns a [result] next to the state it
      leaves behind. *)

From Stdlib Require Import ZArith List Ascii String.
From stdpp Require Import base tactics option list gmap strings sorting pretty.

Local Open Scope string_scope.
Local Open Scope Z_scope.

(** ** hashlib.sha1

    [hashlib.sha1(data)] creates a hash object holding [data];
    [update(more)] appends to it and [hexdigest()] is the SHA-1 digest
    (FIPS 180-4) of everything fed so far, as 40 lower-case hexadecimal
    characters. *)
Module Sha1.

Definition mask32 : Z := 0xFFFFFFFF.

Definition add32 (a b : Z) : Z := Z.land (a + b) mask32.

Definition rotl32 (n x : Z) : Z :=
  Z.land (Z.lor (Z.shiftl x n) (Z.shiftr x (32 - n))) mask32.

Definition not32 (x : Z) : Z := Z.lxor x mask32.

(** The round function and constant of round [t] (0 <= t < 80). *)
Definition f (t : nat) (b c d : Z) : Z :=
  if (t <? 20)%nat then Z.lor (Z.land b c) (Z.land (not32 b) d)
  else if (t <? 40)%nat then Z.lxor (Z.lxor b c) d
  else if (t <? 60)%nat then
    Z.lor (Z.lor (Z.land b c) (Z.land b d)) (Z.land c d)
  else Z.lxor (Z.lxor b c) d.

Definition K (t : nat) : Z :=
  if (t <? 20)%nat then 0x5A827999
  else if (t <? 40)%nat then 0x6ED9EBA1
  else if (t <? 60)%nat then 0x8F1BBCDC
  else 0xCA62C1D6.

(** Big-endian encoding of [x] on [n] bytes, and decoding of a byte list. *)
Fixpoint be_bytes (n : nat) (x : Z) : list Z :=
  match n with
  | O => []
  | S n' => Z.land (Z.shiftr x (8 * Z.of_nat n')) 0xFF :: be_bytes n' x
  end.

Definition be_word (bs : list Z) : Z :=
  fold_left (fun acc b => Z.lor (Z.shiftl acc 8) b) bs 0.

(** Padding: a 1 bit, zeros up to 56 mod 64 bytes, the bit length on 8 bytes. *)
Definition pad (msg : list Z) : list Z :=
  let len := Z.of_nat (length msg) in
  let zeros := Z.to_nat ((55 - len) mod 64) in
  msg ++ 0x80 :: repeat 0 zeros ++ be_bytes 8 (8 * len).

Fixpoint chunks (fuel n : nat) (l : list Z) : list (list Z) :=
  match fuel, l with
  | O, _ | _, [] => []
  | S fuel', _ => firstn n l :: chunks fuel' n (skipn n l)
  end.

(** The message schedule, newest word first: [extend k ws] adds [k] words,
    each from the words 3, 8, 14 and 16 places back. *)
Fixpoint extend (k : nat) (ws : list Z) : list Z :=
  match k with
  | O => ws
  | S k' =>
      let w := rotl32 1 (Z.lxor (Z.lxor (nth 2 ws 0) (nth 7 ws 0))
                                (Z.lxor (nth 13 ws 0) (nth 15 ws 0))) in
      extend k' (w :: ws)
  end.

Definition schedule (block : list Z) : list Z :=
  rev (extend 64 (rev (map be_word (chunks 16 4 block)))).

Record regs := Regs { ra : Z; rb : Z; rc : Z; rd : Z; re : Z }.

Definition round (r : regs) (tw : nat * Z) : regs :=
  let '(t, w) := tw in
  let tmp := add32 (add32 (add32 (add32 (rotl32 5 (ra r))
                                        (f t (rb r) (rc r) (rd r)))
                                 (re r)) w) (K t) in
  Regs tmp (ra r) (rotl32 30 (rb r)) (rc r) (rd r).

Definition compress (h : regs) (block : list Z) : regs :=
  let ws := schedule block in
  let r := fold_left round (combine (seq 0 80) ws) h in
  Regs (add32 (ra h) (ra r)) (add32 (rb h) (rb r)) (add32 (rc h) (rc r))
       (add32 (rd h) (rd r)) (add32 (re h) (re r)).

Definition init : regs :=
  Regs 0x67452301 0xEFCDAB89 0x98BADCFE 0x10325476 0xC3D2E1F0.

Definition digest_words (msg : list Z) : list Z :=
  let p := pad msg in
  let h := fold_left compress (chunks (length p) 64 p) init in
  [ra h; rb h; rc h; rd h; re h].

Definition hex_digit (x : Z) : ascii :=
  nth (Z.to_nat (Z.land x 0xF))
      (list_ascii_of_string "0123456789abcdef") "0"%char.

(** The [n] low nibbles of [x], most significant first. *)
Fixpoint hex_word (n : nat) (x : Z) : string :=
  match n with
  | O => ""
  | S n' => String (hex_digit (Z.shiftr x (4 * Z.of_nat n'))) (hex_word n' x)
  end.

Definition bytes_of_string (s : string) : list Z :=
  map (fun c => Z.of_N (N_of_ascii c)) (list_ascii_of_string s).

(** The hash object: the data fed so far. *)
Definition hasher := string.

Definition sha1 (data : string) : hasher := data.
Definition update (h : hasher) (data : string) : hasher := h ++ data.
Definition hexdigest (h : hasher) : string :=
  fold_right (fun w acc => hex_word 8 w ++ acc) ""
             (digest_words (bytes_of_string h)).

End Sha1.

(** ** Python strings *)

(** [s.endswith(suffix)] *)
Fixpoint endswith (s suffix : string) : bool :=
  if String.eqb s suffix then true
  else match s with
       | EmptyString => false
       | String _ s' => endswith s' suffix
       end.

(** [s.rsplit(sep, 1)[0]] for a one-character [sep]: what precedes the last
    [sep] of [s], or all of [s] when it has none.  [rsplit_before] is [None]
    in the latter case. *)
Fixpoint rsplit_before (sep : ascii) (s : string) : option string :=
  match s with
  | EmptyString => None
  | String c s' =>
      match rsplit_before sep s' with
      | Some p => Some (String c p)
      | None => if Ascii.eqb c sep then Some EmptyString else None
      end
  end.

Definition rsplit1_head (sep : ascii) (s : string) : string :=
  match rsplit_before sep s with
  | Some p => p
  | None => s
  end.

(** [sorted(names)] on [str]: ascending in the bytewise order of strings. *)
Definition sorted (names : list string) : list string :=
  merge_sort String.le names.

(** ["%d" % x] *)
Definition format_d (x : Z) : string := pretty x.

(** What a key of the shelf looks like: the digest of a call, or the digest
    followed by [":atime"]. *)
Definition is_hex (c : ascii) : bool :=
  existsb (Ascii.eqb c) (list_ascii_of_string "0123456789abcdef").

Definition is_hexdigest (s : string) : bool :=
  (String.length s =? 40)%nat && forallb is_hex (list_ascii_of_string s).

(** ** Python objects, exceptions and the state of a run *)

(** An object kept in the shelf or returned by a callable: a number (an
    [int] or a [float], here an integer of the clock's resolution) or any
    other object. *)
Inductive pyobj (R : Type) : Type :=
  | PyNum (x : Z)
  | PyObj (r : R).
Arguments PyNum {R} x.
Arguments PyObj {R} r.

Inductive exn (E : Type) : Type :=
  | KeyError (key : string)
  | TypeError
  | SystemExit (code : Z)
  | Raised (e : E).
Arguments KeyError {E} key.
Arguments TypeError {E}.
Arguments SystemExit {E} code.
Arguments Raised {E} e.

Inductive result (E A : Type) : Type :=
  | Ok (a : A)
  | Raise (e : exn E).
Arguments Ok {E A} a.
Arguments Raise {E A} e.

(** The state a call runs in: the shelf of the cache ([self.__cache]), the
    world the wrapped callables act on, and a count of the invocations of
    wrapped callables made so far. *)
Record state (R W : Type) : Type := State {
  shelf : gmap string (pyobj R);
  world : W;
  invocations : nat
}.
Arguments State {R W} shelf world invocations.
Arguments shelf {R W} s.
Arguments world {R W} s.
Arguments invocations {R W} s.

(** A callable to be cached: its [__name__] and what calling it with
    positional and keyword arguments does to the world; it returns an object
    or raises.  The shelf is private to the cache: a callable does not reach
    it. *)
Record callable (V R W E : Type) : Type := Callable {
  __name__ : string;
  __call__ : list V -> list (string * V) -> W -> (E + pyobj R) * W
}.
Arguments Callable {V R W E} __name__ __call__.
Arguments __name__ {V R W E} c.
Arguments __call__ {V R W E} c args kwargs w.

(** Computations over a state that return or raise. *)
Definition M (R W E A : Type) : Type := state R W -> result E A * state R W.

Definition ret {R W E A} (a : A) : M R W E A := fun s => (Ok a, s).

Definition bind {R W E A B} (m : M R W E A) (k : A -> M R W E B) : M R W E B :=
  fun s => match m s with
           | (Ok a, s') => k a s'
           | (Raise e, s') => (Raise e, s')
           end.

Definition raise {R W E A} (e : exn E) : M R W E A := fun s => (Raise e, s).

Declare Scope py_scope.
Delimit Scope py_scope with py.
Notation "x <- m ;; k" := (bind m (fun x => k))
  (at level 100, m at next level, right associativity) : py_scope.
Notation "m ;;; k" := (bind m (fun _ => k))
  (at level 100, right associativity) : py_scope.

(** [for x in xs: acc = body(acc, x)] *)
Fixpoint for_each {R W E A X} (xs : list X) (body : A -> X -> M R W E A) (acc : A)
  : M R W E A :=
  match xs with
  | [] => ret acc
  | x :: xs' => bind (body acc x) (for_each xs' body)
  end.

(** ** class Cache *)
Section Cache.

Context {V R W E : Type}.

(** The representation function given to [Cache.__init__]. *)
Variable repr : V -> string.

(** Python 2 orders any two objects; [other_lt a b] is [a < b] when one of
    them is not a number. *)
Variable other_lt : pyobj R -> pyobj R -> bool.

Local Open Scope py_scope.

Abbreviation M := (M R W E).
Abbreviation state := (state R W).
Abbreviation callable := (callable V R W E).

Definition py_lt (a b : pyobj R) : bool :=
  match a, b with
  | PyNum x, PyNum y => x <? y
  | _, _ => other_lt a b
  end.

(** [min(a, b)] and [max(a, b)]: the first argument unless the second is
    strictly smaller (greater). *)
Definition py_min (a b : pyobj R) : pyobj R := if py_lt b a then b else a.
Definition py_max (a b : pyobj R) : pyobj R := if py_lt a b then b else a.

(** [a - b] *)
Definition py_sub (a b : pyobj R) : M (pyobj R) :=
  match a, b with
  | PyNum x, PyNum y => ret (PyNum (x - y))
  | _, _ => raise TypeError
  end.

(** *** The shelf: [key in d], [d[key]], [d[key] = v], [del d[key]],
    [d.clear()] and the keys in the order [for key in d] yields them. *)
Definition contains (key : string) : M bool :=
  fun s => (Ok (bool_decide (is_Some (shelf s !! key))), s).

Definition getitem (key : string) : M (pyobj R) :=
  fun s => match shelf s !! key with
           | Some v => (Ok v, s)
           | None => (Raise (KeyError key), s)
           end.

Definition setitem (key : string) (v : pyobj R) : M unit :=
  fun s => (Ok tt, State (<[key := v]> (shelf s)) (world s) (invocations s)).

Definition delitem (key : string) : M unit :=
  fun s => match shelf s !! key with
           | Some _ => (Ok tt, State (delete key (shelf s)) (world s) (invocations s))
           | None => (Raise (KeyError key), s)
           end.

Definition clear_all : M unit :=
  fun s => (Ok tt, State ∅ (world s) (invocations s)).

Definition keys : M (list string) :=
  fun s => (Ok (map_to_list (shelf s)).*1, s).

(** The call of [fn] on the arguments of the wrapper (line 51). *)
Definition invoke (fn : callable) (args : list V) (kwargs : list (string * V))
  : M (pyobj R) :=
  fun s =>
    let '(out, w) := __call__ fn args kwargs (world s) in
    let s' := State (shelf s) w (S (invocations s)) in
    match out with
    | inr v => (Ok v, s')
    | inl e => (Raise (Raised e), s')
    end.

(** *** Keyword arguments: a [dict] in insertion order, [kwargs[k]]. *)
Fixpoint kwargs_get (kwargs : list (string * V)) (k : string) : option V :=
  match kwargs with
  | [] => None
  | (k', v) :: rest => if String.eqb k' k then Some v else kwargs_get rest k
  end.

(** The keyword arguments as the hash sees them: names and
    representations. *)
Definition kwreprs (kwargs : list (string * V)) : list (string * string) :=
  (fun kv => (kv.1, repr kv.2)) <$> kwargs.

(** *** Lines 41-46: the parameter hash. *)
Definition ckey_of (fn : callable) (args : list V) (kwargs : list (string * V))
  : string :=
  let ckey := Sha1.sha1 (__name__ fn) in
  let ckey := fold_left (fun h a => Sha1.update h (repr a)) args ckey in
  let ckey :=
    fold_left (fun h k =>
                 match kwargs_get kwargs k with
                 | Some v => Sha1.update h (k ++ ":" ++ repr v)
                 | None => h
                 end)
              (sorted (kwargs.*1)) ckey in
  Sha1.hexdigest ckey.

Definition atime_key (ckey : string) : string := ckey ++ ":atime".

(** *** [Cache.check(fn)]: the wrapper, called with [args] and [kwargs]
    when [time.time()] reads [now]. *)
Definition wrapper (fn : callable) (args : list V) (kwargs : list (string * V))
           (now : Z) : M (pyobj R) :=
  let ckey := ckey_of fn args kwargs in
  hit <- contains ckey ;;
  result <- (if hit : bool then getitem ckey
             else (result <- invoke fn args kwargs ;;
                   setitem ckey result ;;;
                   ret result)) ;;
  setitem (atime_key ckey) (PyNum now) ;;;
  ret result.

(** *** [Cache.clear(maxage)] when [time.time()] reads [now]. *)
Definition scan_outdated (bigbang : Z) (outdated : list string) (key : string)
  : M (list string) :=
  if endswith key ":atime" then
    v <- getitem key ;;
    if py_lt v (PyNum bigbang)
    then ret (outdated ++ [key; rsplit1_head ":" key])%list
    else ret outdated
  else ret outdated.

Definition clear (maxage now : Z) : M unit :=
  if maxage >? 0 then
    let bigbang := now - maxage in
    ks <- keys ;;
    outdated <- for_each ks (scan_outdated bigbang) [] ;;
    for_each outdated (fun _ key => delitem key) tt
  else clear_all.

(** What the scan of [clear] appends at one key of the shelf [m], and the
    shelf once the keys of [outdated] are deleted. *)
Definition outdated_at (m : gmap string (pyobj R)) (bigbang : Z) (key : string)
  : list string :=
  if endswith key ":atime" then
    match m !! key with
    | Some v => if py_lt v (PyNum bigbang)
                then [key; rsplit1_head ":" key] else []
    | None => []
    end
  else [].

Definition delete_all (outdated : list string) (m : gmap string (pyobj R))
  : gmap string (pyobj R) :=
  fold_left (fun m key => delete key m) outdated m.

(** *** [Cache._stats()] when [time.time()] reads [now]. *)
Definition stats_step (acc : Z * pyobj R * pyobj R) (key : string)
  : M (Z * pyobj R * pyobj R) :=
  let '(num, oldest, newest) := acc in
  if endswith key ":atime" then
    v <- getitem key ;;
    v' <- getitem key ;;
    ret (num + 1, py_min oldest v, py_max newest v')
  else ret acc.

Definition _stats (now : Z) : M (Z * pyobj R * pyobj R) :=
  ks <- keys ;;
  for_each ks stats_step (0, PyNum now, PyNum 0).

(** *** The operations a client of the cache has, and runs of them. *)
Inductive op : Type :=
  | Call (fn : callable) (args : list V) (kwargs : list (string * V))
  | Clear (maxage : Z)
  | Stats.

(** The state an operation leaves, run when the clock reads [now]. *)
Definition exec (s : state) (step : Z * op) : state :=
  match step with
  | (now, Call fn args kwargs) => (wrapper fn args kwargs now s).2
  | (now, Clear maxage) => (clear maxage now s).2
  | (now, Stats) => (_stats now s).2
  end.

Definition run (steps : list (Z * op)) (s : state) : state :=
  fold_left exec steps s.

Definition fresh (w : W) : state := State ∅ w 0.

(** The states a client can bring a new cache to. *)
Definition reachable (s : state) : Prop :=
  exists w steps, s = run steps (fresh w).

(** The shape of a shelf the wrapper has filled: every key is the digest
    of a call, kept with its access time, or the access-time key of a
    digest, holding a number and kept with the value. *)
Definition paired (m : gmap string (pyobj R)) : Prop :=
  forall k v, m !! k = Some v ->
    (is_hexdigest k = true /\ is_Some (m !! atime_key k)) \/
    (exists d t, k = atime_key d /\ is_hexdigest d = true /\
                 v = PyNum t /\ is_Some (m !! d)).

(** No access time of the shelf is later than [c]. *)
Definition bounded (c : Z) (m : gmap string (pyobj R)) : Prop :=
  forall d t, is_hexdigest d = true ->
              m !! atime_key d = Some (PyNum t) -> t <= c.

(** The operations other than [clear]. *)
Definition keeps (step : Z * op) : bool :=
  match step.2 with
  | Clear _ => false
  | _ => true
  end.

(** The last reading of a run whose clock never goes back, from [c]. *)
Fixpoint clock_after (c : Z) (steps : list (Z * op)) : option Z :=
  match steps with
  | [] => Some c
  | (now, _) :: rest => if c <=? now then clock_after now rest else None
  end.

(** *** The command line: [_main()] with [sys.argv = argv], the cache files
    [files] on disk, [time.time()] reading [now] at line 119 and [t] inside
    [_stats].  It gives the lines printed and how the run ends. *)
Fixpoint age_loop (units : list (Z * string)) : option string :=
  match units with
  | [] => None
  | (val, unit) :: rest =>
      if (val >? 1) || String.eqb unit "s"
      then Some (format_d val ++ unit)
      else age_loop rest
  end.

(** [age(s)]: pretty-print an age given in seconds. *)
Definition age (s : Z) : option string :=
  let '(m, h, d) := (s / 60, s / 3600, s / 86400) in
  age_loop [(d, "d"); (h, "h"); (m, "m"); (s, "s")].

(** ["%s" % x] for what [age] returns. *)
Definition format_s (x : option string) : string :=
  match x with
  | Some s => s
  | None => "None"
  end.

Definition _main (argv : list string) (files : gmap string (gmap string (pyobj R)))
           (now t : Z) (w : W) : list string * result E unit :=
  if negb (length argv =? 2)%nat then
    (["Usage: " ++ nth 0 argv "" ++ " CACHEFILE"], Raise (SystemExit 1))
  else
    match files !! nth 1 argv "" with
    | None => (["no such cache file"], Raise (SystemExit 1))
    | Some sh =>
        let c := State sh w 0 in
        match _stats t c with
        | (Raise e, _) => ([], Raise e)
        | (Ok (num, oldest, newest), c) =>
            let line1 := "Number of cached results : " ++ format_d num in
            match py_sub (PyNum now) oldest c with
            | (Ok (PyNum a2), _) =>
                let line2 := "Oldest result usage age  : " ++ format_s (age a2) in
                match py_sub (PyNum now) oldest c with
                | (Ok (PyNum a3), _) =>
                    let line3 := "Latest result usage age  : " ++ format_s (age a3) in
                    ([line1; line2; line3], Ok tt)
                | (Ok (PyObj _), _) => ([line1; line2], Raise TypeError)
                | (Raise e, _) => ([line1; line2], Raise e)
                end
            | (Ok (PyObj _), _) => ([line1], Raise TypeError)
            | (Raise e, _) => ([line1], Raise e)
            end
        end
    end.

(** What the third line would be were it computed from [newest]. *)
Definition latest_line (now : Z) (newest : pyobj R) : option string :=
  match newest with
  | PyNum x => Some ("Latest result usage age  : " ++ format_s (age (now - x)))
  | PyObj _ => None
  end.

End Cache.

(** ** A client: [square], counting its calls in the world. *)
Module Client.

Definition repr (x : Z) : string := pretty x.

Definition other_lt (a b : pyobj Empty_set) : bool := false.

Definition square : callable Z Empty_set nat string :=
  Callable "square"
    (fun args kwargs calls =>
       match args, kwargs with
       | [x], [] => (inr (PyNum (x * x)), S calls)
       | _, _ => (inl "TypeError", calls)
       end).

(** A callable that raises. *)
Definition failing : callable Z Empty_set nat string :=
  Callable "failing" (fun args kwargs calls => (inl "ValueError", S calls)).

(** A second callable under the name of the first. *)
Definition cube : callable Z Empty_set nat string :=
  Callable "square"
    (fun args kwargs calls =>
       match args, kwargs with
       | [x], [] => (inr (PyNum (x * x * x)), S calls)
       | _, _ => (inl "TypeError", calls)
       end).

(** A new cache, and the cache after [square(4)] at time 10. *)
Definition s0 : state Empty_set nat := fresh 0%nat.

Definition s1 : state Empty_set nat := (wrapper repr square [4] [] 10 s0).2.

(** [square(4)] at time 100 and [square(5)] at time 900000, then
    statistics. *)
Definition session : list (Z * op (V:=Z) (R:=Empty_set) (W:=nat) (E:=string)) :=
  [(100, Call square [4] []); (900000, Call square [5] []); (900001, Stats)].

Definition s2 : state Empty_set nat := run repr other_lt session s0.

(** The cache files on disk: [s2], closed, as ["cache.db"]. *)
Definition files : gmap string (gmap string (pyobj Empty_set)) :=
  {[ "cache.db" := shelf s2 ]}.

Definition key4 : string := ckey_of repr square [4] [].
Definition key5 : string := ckey_of repr square [5] [].

End Client.

(** * Properties *)

Set Default Proof Using "Type".

Arguments ckey_of : simpl never.
Arguments atime_key : simpl never.
Arguments Sha1.hexdigest : simpl never.

(** ** SHA-1 test vectors (FIPS 180-4, appendix) *)
Module Sha1Facts.
Import Sha1.

Example hexdigest_empty :
  hexdigest (sha1 "") = "da39a3ee5e6b4b0d3255bfef95601890afd80709".
Proof. vm_compute. reflexivity. Qed.

Example hexdigest_abc :
  hexdigest (sha1 "abc") = "a9993e364706816aba3e25717850c26c9cd0d89d".
Proof. vm_compute. reflexivity. Qed.

Example hexdigest_two_blocks :
  hexdigest (update (sha1 "abcdbcdecdefdefgefghfghighijhijk")
                    "ijkljklmklmnlmnomnopnopq")
  = "84983e441c3bd26ebaae4aa1f95129e5e54670f1".
Proof. vm_compute. reflexivity. Qed.

Lemma hex_digit_is_hex x : is_hex (hex_digit x) = true.
Proof.
  unfold hex_digit. change 0xF with (Z.ones 4). rewrite Z.land_ones by lia.
  assert (Hlt : (Z.to_nat (x mod 2 ^ 4) < 16)%nat).
  { pose proof (Z.mod_pos_bound x (2 ^ 4)). lia. }
  revert Hlt. generalize (Z.to_nat (x mod 2 ^ 4)). intros n Hn.
  do 16 (destruct n as [|n]; [reflexivity|]). lia.
Qed.

Lemma hex_word_length n x : String.length (hex_word n x) = n.
Proof. induction n as [|n IH]; simpl; [reflexivity | by rewrite IH]. Qed.

Lemma hex_word_is_hex n x :
  forallb is_hex (list_ascii_of_string (hex_word n x)) = true.
Proof.
  induction n as [|n IH]; [reflexivity|].
  cbn [hex_word list_ascii_of_string forallb].
  by rewrite hex_digit_is_hex, IH.
Qed.

End Sha1Facts.

(** ** Strings *)

Lemma string_app_cons c (s1 s2 : string) :
  String c s1 ++ s2 = String c (s1 ++ s2).
Proof. reflexivity. Qed.

Lemma string_length_app (s1 s2 : string) :
  String.length (s1 ++ s2) = (String.length s1 + String.length s2)%nat.
Proof. induction s1 as [|c s1 IH]; simpl; [reflexivity | by rewrite IH]. Qed.

Lemma list_ascii_app (s1 s2 : string) :
  list_ascii_of_string (s1 ++ s2)
  = (list_ascii_of_string s1 ++ list_ascii_of_string s2)%list.
Proof. induction s1 as [|c s1 IH]; simpl; [reflexivity | by rewrite IH]. Qed.

(** [hexdigest()] returns 40 hexadecimal characters. *)
Lemma hexdigest_is_hexdigest (h : Sha1.hasher) :
  is_hexdigest (Sha1.hexdigest h) = true.
Proof.
  unfold Sha1.hexdigest, Sha1.digest_words, is_hexdigest.
  cbn [fold_right]. apply andb_true_iff. split.
  - rewrite !string_length_app, !Sha1Facts.hex_word_length. reflexivity.
  - rewrite !list_ascii_app, !forallb_app, !Sha1Facts.hex_word_is_hex.
    reflexivity.
Qed.

Lemma is_hexdigest_length d : is_hexdigest d = true -> String.length d = 40%nat.
Proof.
  unfold is_hexdigest. intros [H _]%andb_true_iff. by apply Nat.eqb_eq in H.
Qed.

Lemma endswith_refl s : endswith s s = true.
Proof. destruct s; cbn [endswith]; by rewrite String.eqb_refl. Qed.

Lemma endswith_app p suffix : endswith (p ++ suffix) suffix = true.
Proof.
  induction p as [|c p IH]; [apply endswith_refl|].
  rewrite string_app_cons. cbn [endswith]. rewrite IH. by destruct (String.eqb _ _).
Qed.

Lemma endswith_inv s suffix :
  endswith s suffix = true -> exists p, s = p ++ suffix.
Proof.
  induction s as [|c s IH]; cbn [endswith].
  - destruct (String.eqb_spec "" suffix) as [<-|]; [by exists "" | done].
  - destruct (String.eqb_spec (String c s) suffix) as [<-|_].
    + by exists "".
    + intros [p ->]%IH. by exists (String c p).
Qed.

Lemma is_hex_colon_free s :
  forallb is_hex (list_ascii_of_string s) = true ->
  forall p q, s <> p ++ String ":" q.
Proof.
  intros Hs p q ->. rewrite list_ascii_app, forallb_app in Hs.
  apply andb_true_iff in Hs as [_ Hs]. simpl in Hs. discriminate.
Qed.

(** A digest does not end with [":atime"]. *)
Lemma hexdigest_not_atime d :
  is_hexdigest d = true -> endswith d ":atime" = false.
Proof.
  intros [_ Hd]%andb_true_iff. destruct (endswith d ":atime") eqn:He; [|done].
  apply endswith_inv in He as [p ->].
  by destruct (is_hex_colon_free _ Hd p "atime").
Qed.

Lemma atime_key_endswith d : endswith (atime_key d) ":atime" = true.
Proof. apply endswith_app. Qed.

Lemma atime_key_inj d1 d2 : atime_key d1 = atime_key d2 -> d1 = d2.
Proof.
  unfold atime_key. revert d2.
  induction d1 as [|c d1 IH]; intros [|c2 d2] H; simpl in H.
  - done.
  - apply (f_equal String.length) in H. simpl in H.
    rewrite string_length_app in H. simpl in H. lia.
  - apply (f_equal String.length) in H. simpl in H.
    rewrite string_length_app in H. simpl in H. lia.
  - injection H as -> H. f_equal. by apply IH.
Qed.

Lemma atime_key_not_hexdigest d : is_hexdigest d = true ->
  forall d', d <> atime_key d'.
Proof.
  intros Hd d' ->. apply hexdigest_not_atime in Hd.
  by rewrite atime_key_endswith in Hd.
Qed.

(** [rsplit(":", 1)[0]] undoes [atime_key]. *)
Lemma rsplit_before_app sep p q r :
  rsplit_before sep q = Some r ->
  rsplit_before sep (p ++ q) = Some (p ++ r).
Proof.
  intros Hq. induction p as [|c p IH]; [done|].
  rewrite string_app_cons. cbn [rsplit_before]. by rewrite IH.
Qed.

Lemma rsplit1_head_atime d : rsplit1_head ":" (atime_key d) = d.
Proof.
  unfold rsplit1_head, atime_key.
  rewrite (rsplit_before_app ":" d ":atime" "") by reflexivity.
  clear. induction d as [|c d IH]; [done|].
  by rewrite string_app_cons, IH.
Qed.

(** ** Key derivation *)
Section KeyFacts.

Context {V R W E : Type}.
Variable repr : V -> string.

Abbreviation callable := (callable V R W E).

Lemma kwreprs_keys kwargs : (kwreprs repr kwargs).*1 = kwargs.*1.
Proof. unfold kwreprs. rewrite <- list_fmap_compose. done. Qed.

Lemma kwargs_get_kwreprs kwargs k :
  kwargs_get (kwreprs repr kwargs) k = repr <$> kwargs_get kwargs k.
Proof.
  induction kwargs as [|[k' v] kwargs IH]; [done|].
  cbn. by destruct (String.eqb k' k).
Qed.

Lemma kwargs_get_perm {X} (l l' : list (string * X)) :
  NoDup l.*1 -> l ≡ₚ l' -> forall k, kwargs_get l k = kwargs_get l' k.
Proof.
  intros Hnd Hp k. induction Hp as [|[k1 v1] l l' Hp IH
                                    |[k1 v1] [k2 v2] l|l1 l2 l3 Hp1 IH1 Hp2 IH2].
  - done.
  - cbn. apply NoDup_cons in Hnd as [_ Hnd]. by rewrite IH.
  - cbn. destruct (String.eqb_spec k2 k) as [->|], (String.eqb_spec k1 k) as [->|];
      try done.
    cbn in Hnd. apply NoDup_cons in Hnd as [Hnd _]. set_solver.
  - rewrite IH1 by done. apply IH2. by rewrite <- Hp1.
Qed.

Lemma sorted_perm (l l' : list string) : l ≡ₚ l' -> sorted l = sorted l'.
Proof.
  intros Hp. unfold sorted. apply (Sorted_unique String.le).
  - apply Sorted_merge_sort, _.
  - apply Sorted_merge_sort, _.
  - by rewrite !merge_sort_Permutation.
Qed.

Lemma fold_left_ext_in {A B} (f g : A -> B -> A) (l : list B) (a : A) :
  (forall a b, b ∈ l -> f a b = g a b) -> fold_left f l a = fold_left g l a.
Proof.
  revert a. induction l as [|b l IH]; intros a Hfg; [done|].
  cbn. rewrite Hfg by set_solver. apply IH. intros; apply Hfg; set_solver.
Qed.

Lemma fold_left_fmap {A B C} (f : A -> C -> A) (g : B -> C) (l : list B) a :
  fold_left (fun x b => f x (g b)) l a = fold_left f (g <$> l) a.
Proof. revert a. induction l as [|b l IH]; intros a; [done | apply IH]. Qed.

(** The key is a function of the callable's name, the representations of
    the positional arguments in order, and the set of (name,
    representation) pairs of the keyword arguments. *)
Lemma ckey_of_ext (fn fn' : callable) args args' kwargs kwargs' :
  __name__ fn = __name__ fn' ->
  repr <$> args = repr <$> args' ->
  NoDup kwargs.*1 ->
  kwreprs repr kwargs ≡ₚ kwreprs repr kwargs' ->
  ckey_of repr fn args kwargs = ckey_of repr fn' args' kwargs'.
Proof.
  intros Hname Hargs Hnd Hkw. unfold ckey_of. f_equal.
  assert (Hkeys : sorted kwargs.*1 = sorted kwargs'.*1).
  { apply sorted_perm. rewrite <- !kwreprs_keys. by apply fmap_Permutation. }
  assert (Hget : forall k, repr <$> kwargs_get kwargs k
                           = repr <$> kwargs_get kwargs' k).
  { intros k. rewrite <- !kwargs_get_kwreprs. apply kwargs_get_perm; [|done].
    by rewrite kwreprs_keys. }
  rewrite <- Hkeys, Hname.
  assert (Hpos : fold_left (fun h a => Sha1.update h (repr a)) args
                   (Sha1.sha1 (__name__ fn'))
                 = fold_left (fun h a => Sha1.update h (repr a)) args'
                     (Sha1.sha1 (__name__ fn'))).
  { change (fun h a => Sha1.update h (repr a))
      with (fun h a => (fun h r => Sha1.update h r) h (repr a)).
    rewrite !(fold_left_fmap (fun h r => Sha1.update h r) repr).
    by rewrite Hargs. }
  rewrite Hpos. apply fold_left_ext_in. intros h k _.
  specialize (Hget k).
  destruct (kwargs_get kwargs k), (kwargs_get kwargs' k); cbn in Hget; try done.
  by injection Hget as ->.
Qed.

Lemma ckey_of_is_hexdigest (fn : callable) args kwargs :
  is_hexdigest (ckey_of repr fn args kwargs) = true.
Proof. apply hexdigest_is_hexdigest. Qed.

End KeyFacts.

(** ** The wrapper, branch by branch *)
Section WrapperFacts.

Context {V R W E : Type}.
Variable repr : V -> string.

Abbreviation state := (state R W).
Abbreviation callable := (callable V R W E).

Ltac run_wrapper :=
  unfold wrapper, bind, contains, getitem, setitem, invoke, ret;
  cbn [shelf world invocations].

(** Lines 48-49 and 53: a hit. *)
Lemma wrapper_hit (fn : callable) args kwargs now (s : state) v :
  shelf s !! ckey_of repr fn args kwargs = Some v ->
  wrapper repr fn args kwargs now s
  = (Ok v, State (<[atime_key (ckey_of repr fn args kwargs) := PyNum now]> (shelf s))
                 (world s) (invocations s)).
Proof.
  intros Hv. run_wrapper. rewrite Hv.
  rewrite bool_decide_true by eauto. cbn beta iota. by rewrite Hv.
Qed.

(** Lines 50-53: a miss whose callable returns. *)
Lemma wrapper_miss (fn : callable) args kwargs now (s : state) v w :
  shelf s !! ckey_of repr fn args kwargs = None ->
  __call__ fn args kwargs (world s) = (inr v, w) ->
  wrapper repr fn args kwargs now s
  = (Ok v, State (<[atime_key (ckey_of repr fn args kwargs) := PyNum now]>
                    (<[ckey_of repr fn args kwargs := v]> (shelf s)))
                 w (S (invocations s))).
Proof.
  intros Hv Hcall. run_wrapper. rewrite Hv.
  rewrite bool_decide_false by (intros [? ?]; done).
  cbn beta iota. by rewrite Hcall.
Qed.

(** Lines 50-51: a miss whose callable raises. *)
Lemma wrapper_raise (fn : callable) args kwargs now (s : state) e w :
  shelf s !! ckey_of repr fn args kwargs = None ->
  __call__ fn args kwargs (world s) = (inl e, w) ->
  wrapper repr fn args kwargs now s
  = (Raise (Raised e), State (shelf s) w (S (invocations s))).
Proof.
  intros Hv Hcall. run_wrapper. rewrite Hv.
  rewrite bool_decide_false by (intros [? ?]; done).
  cbn beta iota. by rewrite Hcall.
Qed.

(** The three cases are all there are. *)
Lemma wrapper_cases (fn : callable) args kwargs now (s : state) :
  let ckey := ckey_of repr fn args kwargs in
  (exists v, shelf s !! ckey = Some v /\
     wrapper repr fn args kwargs now s
     = (Ok v, State (<[atime_key ckey := PyNum now]> (shelf s))
                    (world s) (invocations s))) \/
  (exists v w, shelf s !! ckey = None /\
     __call__ fn args kwargs (world s) = (inr v, w) /\
     wrapper repr fn args kwargs now s
     = (Ok v, State (<[atime_key ckey := PyNum now]> (<[ckey := v]> (shelf s)))
                    w (S (invocations s)))) \/
  (exists e w, shelf s !! ckey = None /\
     __call__ fn args kwargs (world s) = (inl e, w) /\
     wrapper repr fn args kwargs now s
     = (Raise (Raised e), State (shelf s) w (S (invocations s)))).
Proof.
  intros ckey. destruct (shelf s !! ckey) as [v|] eqn:Hv.
  - left. exists v. split; [done|]. by apply wrapper_hit.
  - right. destruct (__call__ fn args kwargs (world s)) as [[e|v] w] eqn:Hcall.
    + right. exists e, w. repeat split; try done. by apply wrapper_raise.
    + left. exists v, w. repeat split; try done. by apply wrapper_miss.
Qed.

Lemma ckey_ne_atime (fn : callable) args kwargs d :
  ckey_of repr fn args kwargs <> atime_key d.
Proof. apply atime_key_not_hexdigest, hexdigest_is_hexdigest. Qed.

(** A returning call leaves its result under the key. *)
Lemma wrapper_stores (fn : callable) args kwargs now (s s' : state) v :
  wrapper repr fn args kwargs now s = (Ok v, s') ->
  shelf s' !! ckey_of repr fn args kwargs = Some v.
Proof.
  intros Hw.
  destruct (wrapper_cases fn args kwargs now s)
    as [(v' & Hv & Heq)|[(v' & w & Hv & Hcall & Heq)|(e & w & _ & _ & Heq)]];
    rewrite Heq in Hw; simplify_eq; cbn.
  - rewrite lookup_insert_ne; [done|]. intros Hk. symmetry in Hk.
    by apply ckey_ne_atime in Hk.
  - rewrite lookup_insert_ne, lookup_insert_eq; [done|]. intros Hk.
    symmetry in Hk. by apply ckey_ne_atime in Hk.
Qed.

(** A call never overwrites or removes the value stored under a digest. *)
Lemma wrapper_keeps (fn : callable) args kwargs now (s : state) d v :
  is_hexdigest d = true ->
  shelf s !! d = Some v ->
  shelf (wrapper repr fn args kwargs now s).2 !! d = Some v.
Proof.
  intros Hd Hv.
  destruct (wrapper_cases fn args kwargs now s)
    as [(v' & Hv' & ->)|[(v' & w & Hv' & Hcall & ->)|(e & w & _ & _ & ->)]]; cbn.
  - rewrite lookup_insert_ne; [done|]. intros <-.
    by eapply atime_key_not_hexdigest.
  - rewrite lookup_insert_ne by (intros <-; by eapply atime_key_not_hexdigest).
    rewrite lookup_insert_ne; [done|]. intros <-. congruence.
  - done.
Qed.

End WrapperFacts.

(** ** Loops over the shelf *)
Section ShelfFacts.

Context {V R W E : Type}.
Variable other_lt : pyobj R -> pyobj R -> bool.

Abbreviation state := (state R W).
Abbreviation shelf_t := (gmap string (pyobj R)).

Lemma keys_spec (m : shelf_t) k : k ∈ (map_to_list m).*1 <-> is_Some (m !! k).
Proof.
  rewrite list_elem_of_fmap. split.
  - intros [[k' v] [-> Hkv]]. apply elem_of_map_to_list in Hkv. by exists v.
  - intros [v Hv]. exists (k, v). split; [done|]. by apply elem_of_map_to_list.
Qed.

(** A loop whose body leaves the state alone leaves it alone. *)
Lemma for_each_pure {A X} (body : A -> X -> M R W E A) xs acc (s : state) :
  (forall a x, (body a x s).2 = s) ->
  (for_each xs body acc s).2 = s.
Proof.
  intros Hbody. revert acc. induction xs as [|x xs IH]; intros acc; [done|].
  cbn [for_each]. unfold bind. specialize (Hbody acc x).
  destruct (body acc x s) as [[a|e] s']; cbn in Hbody; subst s'; [apply IH|done].
Qed.

(** The scan of [clear]. *)
Lemma scan_spec bigbang ks acc (s : state) :
  (forall k, k ∈ ks -> is_Some (shelf s !! k)) ->
  for_each ks (scan_outdated (E:=E) other_lt bigbang) acc s
  = (Ok (acc ++ (ks ≫= outdated_at other_lt (shelf s) bigbang))%list, s).
Proof.
  revert acc. induction ks as [|k ks IH]; intros acc Hks.
  - cbn. by rewrite app_nil_r.
  - cbn [for_each]. unfold bind at 1.
    destruct (Hks k) as [v Hv]; [set_solver|].
    assert (Hstep : scan_outdated (E:=E) other_lt bigbang acc k s
                    = (Ok (acc ++ outdated_at other_lt (shelf s) bigbang k)%list, s)).
    { unfold scan_outdated, outdated_at, bind, getitem, ret.
      destruct (endswith k ":atime"); [|by rewrite app_nil_r].
      rewrite !Hv.
      destruct (py_lt other_lt v (PyNum bigbang)); [done|by rewrite app_nil_r]. }
    rewrite Hstep, IH by set_solver. by rewrite <- app_assoc.
Qed.

Lemma lookup_delete_all (l : list string) (m : shelf_t) k :
  delete_all l m !! k = if decide (k ∈ l) then None else m !! k.
Proof.
  unfold delete_all. revert m. induction l as [|x l IH]; intros m; [done|].
  cbn [fold_left]. rewrite IH.
  destruct (decide (k ∈ l)) as [Hin|Hnin].
  - rewrite decide_True by (by apply list_elem_of_further). done.
  - destruct (decide (x = k)) as [->|Hne].
    + rewrite decide_True by apply list_elem_of_here. apply lookup_delete_eq.
    + rewrite decide_False, lookup_delete_ne; [done|done|].
      intros [?|?]%elem_of_cons; congruence.
Qed.

(** The deletion loop of [clear]. *)
Lemma delete_loop_spec (l : list string) (s : state) :
  NoDup l ->
  (forall k, k ∈ l -> is_Some (shelf s !! k)) ->
  for_each l (fun _ key => delitem (E:=E) key) tt s
  = (Ok tt, State (delete_all l (shelf s)) (world s) (invocations s)).
Proof.
  revert s. induction l as [|k l IH]; intros s Hnd Hl.
  - by destruct s.
  - apply NoDup_cons in Hnd as [Hk Hnd].
    cbn [for_each]. unfold bind, delitem at 1.
    destruct (Hl k) as [v Hv]; [apply list_elem_of_here|]. rewrite Hv.
    rewrite IH; [done|done|]. cbn [shelf]. intros k' Hk'.
    rewrite lookup_delete_ne by (by intros ->).
    by apply Hl, list_elem_of_further.
Qed.

(** Whatever happens, the loop only deletes. *)
Lemma delete_loop_subseteq (l : list string) (s : state) :
  shelf (for_each l (fun _ key => delitem (E:=E) key) tt s).2 ⊆ shelf s.
Proof.
  revert s. induction l as [|k l IH]; intros s; [done|].
  cbn [for_each]. unfold bind, delitem at 1.
  destruct (shelf s !! k); [|done].
  etrans; [apply IH|]. cbn [shelf]. apply delete_subseteq.
Qed.

End ShelfFacts.

(** ** What [clear] collects on a paired shelf *)
Section ClearFacts.

Context {V R W E : Type}.
Variable other_lt : pyobj R -> pyobj R -> bool.

Abbreviation state := (state R W).
Abbreviation shelf_t := (gmap string (pyobj R)).

(** The keys collected by the scan, in the order of the shelf. *)
Abbreviation outdated m bigbang :=
  ((map_to_list m).*1 ≫= outdated_at other_lt m bigbang).

Lemma paired_atime (m : shelf_t) key v :
  paired m -> m !! key = Some v -> endswith key ":atime" = true ->
  exists d t, key = atime_key d /\ is_hexdigest d = true /\
              v = PyNum t /\ is_Some (m !! d).
Proof.
  intros Hm Hv He. destruct (Hm key v Hv) as [[Hd _]|H]; [|done].
  apply hexdigest_not_atime in Hd. congruence.
Qed.

Lemma outdated_at_inv (m : shelf_t) bigbang key x :
  paired m -> x ∈ outdated_at other_lt m bigbang key ->
  exists d t, key = atime_key d /\ is_hexdigest d = true /\
              m !! key = Some (PyNum t) /\ t < bigbang /\
              is_Some (m !! d) /\ (x = key \/ x = d).
Proof.
  intros Hm. unfold outdated_at.
  destruct (endswith key ":atime") eqn:He; [|by intros ?%elem_of_nil].
  destruct (m !! key) as [v|] eqn:Hv; [|by intros ?%elem_of_nil].
  destruct (paired_atime m key v Hm Hv He) as (d & t & -> & Hd & -> & Hmd).
  cbn [py_lt]. destruct (Z.ltb_spec t bigbang) as [Hlt|]; [|by intros ?%elem_of_nil].
  rewrite rsplit1_head_atime. intros Hx. exists d, t.
  repeat split; try done.
  apply elem_of_cons in Hx as [->|Hx]; [by left|].
  apply elem_of_cons in Hx as [->|Hx]; [by right|]. by apply elem_of_nil in Hx.
Qed.

Lemma outdated_at_stale (m : shelf_t) bigbang d t :
  m !! atime_key d = Some (PyNum t) -> t < bigbang ->
  outdated_at other_lt m bigbang (atime_key d) = [atime_key d; d].
Proof.
  intros Hv Hlt. unfold outdated_at.
  rewrite atime_key_endswith, Hv. cbn [py_lt].
  destruct (Z.ltb_spec t bigbang); [|lia]. by rewrite rsplit1_head_atime.
Qed.

(** Exactly the two keys of every stale pair are collected. *)
Lemma outdated_elem (m : shelf_t) bigbang x :
  paired m ->
  x ∈ outdated m bigbang <->
  exists d t, m !! atime_key d = Some (PyNum t) /\ t < bigbang /\
              (x = atime_key d \/ x = d).
Proof.
  intros Hm. rewrite list_elem_of_bind. split.
  - intros (key & Hx & _).
    apply outdated_at_inv in Hx as (d & t & -> & _ & Hv & Hlt & _ & Hx); [|done].
    by exists d, t.
  - intros (d & t & Hv & Hlt & Hx). exists (atime_key d). split.
    + rewrite (outdated_at_stale m bigbang d t) by done.
      destruct Hx as [->| ->]; set_solver.
    + apply keys_spec. eauto.
Qed.

Lemma outdated_present (m : shelf_t) bigbang x :
  paired m -> x ∈ outdated m bigbang -> is_Some (m !! x).
Proof.
  intros Hm (key & Hx & _)%list_elem_of_bind.
  apply outdated_at_inv in Hx as (d & t & -> & _ & Hv & _ & Hd & [->| ->]); eauto.
Qed.

Lemma outdated_NoDup (m : shelf_t) bigbang :
  paired m -> NoDup (outdated m bigbang).
Proof.
  intros Hm. generalize (NoDup_fst_map_to_list m).
  generalize ((map_to_list m).*1). intros ks.
  induction ks as [|k ks IH]; intros Hnd; [constructor|].
  apply NoDup_cons in Hnd as [Hk Hnd].
  change ((k :: ks) ≫= outdated_at other_lt m bigbang)
    with (outdated_at other_lt m bigbang k
          ++ (ks ≫= outdated_at other_lt m bigbang))%list.
  apply NoDup_app. split; [|split; [|by apply IH]].
  - unfold outdated_at. destruct (endswith k ":atime") eqn:He; [|constructor].
    destruct (m !! k) as [v|] eqn:Hv; [|constructor].
    destruct (py_lt other_lt v (PyNum bigbang)); [|constructor].
    destruct (paired_atime m k v Hm Hv He) as (d & t & -> & Hd & _ & _).
    rewrite rsplit1_head_atime. apply NoDup_cons. split; [|apply NoDup_singleton].
    intros Heq%list_elem_of_singleton.
    by apply (atime_key_not_hexdigest d Hd d).
  - intros x Hx (k' & Hx' & Hk')%list_elem_of_bind.
    apply outdated_at_inv in Hx as (d & t & -> & Hd & _ & _ & _ & Hx); [|done].
    apply outdated_at_inv in Hx' as (d' & t' & -> & Hd' & _ & _ & _ & Hx'); [|done].
    destruct Hx as [->| ->], Hx' as [Heq|Heq].
    + rewrite Heq in Hk. done.
    + by eapply (atime_key_not_hexdigest d').
    + by eapply (atime_key_not_hexdigest d).
    + subst d'. done.
Qed.

(** [clear] with a positive [maxage] on a paired shelf: it returns, and
    deletes what the scan collected. *)
Lemma clear_aged maxage now (s : state) :
  paired (shelf s) -> 0 < maxage ->
  clear (E:=E) other_lt maxage now s
  = (Ok tt, State (delete_all (outdated (shelf s) (now - maxage)) (shelf s))
                  (world s) (invocations s)).
Proof.
  intros Hm Hpos. unfold clear.
  destruct (Z.gtb_spec maxage 0); [|lia].
  unfold bind at 1. unfold keys at 1. unfold bind at 1.
  rewrite scan_spec by (intros k; apply keys_spec).
  cbn [app]. apply delete_loop_spec.
  - by apply outdated_NoDup.
  - intros k. by apply outdated_present.
Qed.

(** [clear] without a positive [maxage]. *)
Lemma clear_full maxage now (s : state) :
  maxage <= 0 ->
  clear (E:=E) other_lt maxage now s
  = (Ok tt, State ∅ (world s) (invocations s)).
Proof. intros Hle. unfold clear. by destruct (Z.gtb_spec maxage 0); [lia|]. Qed.

(** The shelf after [clear], key by key. *)
Lemma lookup_clear_gone (m : shelf_t) bigbang k d t :
  paired m -> m !! atime_key d = Some (PyNum t) -> t < bigbang ->
  k = atime_key d \/ k = d ->
  delete_all (outdated m bigbang) m !! k = None.
Proof.
  intros Hm Hv Hlt Hk. rewrite lookup_delete_all, decide_True; [done|].
  apply outdated_elem; [done|]. by exists d, t.
Qed.

Lemma lookup_clear_kept (m : shelf_t) bigbang k :
  paired m ->
  (forall d t, m !! atime_key d = Some (PyNum t) -> k = atime_key d \/ k = d ->
               bigbang <= t) ->
  delete_all (outdated m bigbang) m !! k = m !! k.
Proof.
  intros Hm Hk. rewrite lookup_delete_all, decide_False; [done|].
  intros (d & t & Hv & Hlt & Hx)%outdated_elem; [|done].
  specialize (Hk d t Hv Hx). lia.
Qed.

End ClearFacts.

(** ** Invariants of the shelf *)
Section Invariants.

Context {V R W E : Type}.
Variable repr : V -> string.
Variable other_lt : pyobj R -> pyobj R -> bool.

Abbreviation state := (state R W).
Abbreviation callable := (callable V R W E).
Abbreviation shelf_t := (gmap string (pyobj R)).
Abbreviation op_t := (@op V R W E).

Lemma paired_empty : paired (R:=R) ∅.
Proof. intros k v Hk. by rewrite lookup_empty in Hk. Qed.

Lemma paired_atime_key (m : shelf_t) d v :
  paired m -> m !! atime_key d = Some v ->
  is_hexdigest d = true /\ (exists t, v = PyNum t) /\ is_Some (m !! d).
Proof.
  intros Hm Hv.
  destruct (paired_atime m _ v Hm Hv (atime_key_endswith d))
    as (d' & t & ->%atime_key_inj & Hd & -> & Hmd).
  eauto.
Qed.

(** Storing a value with its access time keeps the shelf paired. *)
Lemma paired_store (m : shelf_t) d v now :
  paired m -> is_hexdigest d = true ->
  paired (<[atime_key d := PyNum now]> (<[d := v]> m)).
Proof.
  intros Hm Hd k x Hk.
  pose proof (atime_key_not_hexdigest d Hd) as Hda.
  destruct (decide (k = atime_key d)) as [->|Hka].
  { right. exists d, now. rewrite lookup_insert_eq in Hk.
    repeat split; [done|congruence|].
    rewrite lookup_insert_ne by (intros Heq; by apply (Hda d)).
    rewrite lookup_insert_eq. eauto. }
  rewrite lookup_insert_ne in Hk by done.
  destruct (decide (k = d)) as [->|Hkd].
  { left. split; [done|]. rewrite lookup_insert_eq. eauto. }
  rewrite lookup_insert_ne in Hk by done.
  destruct (Hm k x Hk) as [[Hkh Hat]|(d' & t & -> & Hd' & -> & Hmd')].
  - left. split; [done|].
    apply lookup_insert_is_Some. destruct (decide (atime_key d = atime_key k));
      [by left|right]. split; [done|].
    rewrite lookup_insert_ne; [done|]. intros Heq. by apply (Hda k).
  - right. exists d', t. repeat split; try done.
    rewrite lookup_insert_ne
      by (intros Heq; by apply (atime_key_not_hexdigest d' Hd' d)).
    apply lookup_insert_is_Some. destruct (decide (d = d')); [by left|by right].
Qed.

Lemma paired_wrapper (fn : callable) args kwargs now (s : state) :
  paired (shelf s) -> paired (shelf (wrapper repr fn args kwargs now s).2).
Proof.
  intros Hm.
  pose proof (ckey_of_is_hexdigest (R:=R) (W:=W) (E:=E) repr fn args kwargs) as Hd.
  destruct (wrapper_cases repr fn args kwargs now s)
    as [(v & Hv & ->)|[(v & w & Hv & Hcall & ->)|(e & w & _ & _ & ->)]];
    cbn [snd shelf].
  - rewrite <- (insert_id (shelf s) _ _ Hv) at 1. by apply paired_store.
  - by apply paired_store.
  - done.
Qed.

Lemma paired_clear_aged (m : shelf_t) bigbang :
  paired m ->
  paired (delete_all ((map_to_list m).*1 ≫= outdated_at other_lt m bigbang) m).
Proof.
  intros Hm k x. rewrite lookup_delete_all.
  destruct (decide _) as [|Hk]; [done|]. intros Hx.
  assert (Hkeep : forall k', is_Some (m !! k') ->
            (forall d t, m !! atime_key d = Some (PyNum t) ->
                         k' = atime_key d \/ k' = d -> k = atime_key d \/ k = d) ->
            is_Some (delete_all ((map_to_list m).*1
                                 ≫= outdated_at other_lt m bigbang) m !! k')).
  { intros k' Hk' Hsame. rewrite lookup_delete_all, decide_False; [done|].
    intros (d & t & Hv & Hlt & Hx')%outdated_elem; [|done].
    apply Hk, outdated_elem; [done|]. exists d, t. eauto. }
  destruct (Hm k x Hx) as [[Hkh Hat]|(d' & t' & -> & Hd' & -> & Hmd')].
  - left. split; [done|]. apply Hkeep; [done|].
    intros d t Hv [->%atime_key_inj|Heq]; [by right|].
    apply (paired_atime_key m) in Hv as [Hd _]; [|done].
    exfalso. by apply (atime_key_not_hexdigest d Hd k).
  - right. exists d', t'. repeat split; try done. apply Hkeep; [done|].
    intros d t Hv [Heq| ->]; [|by left].
    exfalso. by apply (atime_key_not_hexdigest d' Hd' d).
Qed.

(** [_stats] and the scan of [clear] only read. *)
Lemma stats_pure now (s : state) : (_stats (E:=E) other_lt now s).2 = s.
Proof.
  unfold _stats, bind, keys. apply for_each_pure.
  intros [[num oldest] newest] k. unfold stats_step, bind, getitem, ret.
  destruct (endswith k ":atime"); [|done].
  destruct (shelf s !! k) eqn:Hk; [|done]. by rewrite Hk.
Qed.

Lemma scan_pure bigbang ks acc (s : state) :
  (for_each ks (scan_outdated (E:=E) other_lt bigbang) acc s).2 = s.
Proof.
  apply for_each_pure. intros a k. unfold scan_outdated, bind, getitem, ret.
  destruct (endswith k ":atime"); [|done].
  destruct (shelf s !! k) as [v|]; [|done].
  by destruct (py_lt other_lt v (PyNum bigbang)).
Qed.

(** [clear] only deletes, and touches nothing but the shelf. *)
Lemma clear_subseteq maxage now (s : state) :
  shelf (clear (E:=E) other_lt maxage now s).2 ⊆ shelf s.
Proof.
  unfold clear. destruct (maxage >? 0).
  - unfold bind at 1. unfold keys at 1. unfold bind at 1.
    pose proof (scan_pure (now - maxage) (map_to_list (shelf s)).*1 [] s) as Hs.
    destruct (for_each _ (scan_outdated _ _) _ _) as [[l|e] s']; cbn in Hs;
      subst s'; [apply delete_loop_subseteq|done].
  - cbn. apply map_empty_subseteq.
Qed.

Lemma paired_clear maxage now (s : state) :
  paired (shelf s) -> paired (shelf (clear (E:=E) other_lt maxage now s).2).
Proof.
  intros Hm. destruct (Z.le_gt_cases maxage 0).
  - rewrite clear_full by done. apply paired_empty.
  - rewrite clear_aged by done. by apply paired_clear_aged.
Qed.

Lemma paired_exec (s : state) (step : Z * op_t) :
  paired (shelf s) -> paired (shelf (exec repr other_lt s step)).
Proof.
  intros Hm. destruct step as [now [fn args kwargs|maxage|]]; cbn [exec].
  - by apply paired_wrapper.
  - by apply paired_clear.
  - by rewrite stats_pure.
Qed.

Lemma paired_run (steps : list (Z * op_t)) (s : state) :
  paired (shelf s) -> paired (shelf (run repr other_lt steps s)).
Proof.
  revert s. unfold run. induction steps as [|step steps IH]; intros s Hm; [done|].
  cbn [fold_left]. by apply IH, paired_exec.
Qed.

Lemma reachable_paired (s : state) :
  reachable (E:=E) repr other_lt s -> paired (shelf s).
Proof. intros (w & steps & ->). apply paired_run, paired_empty. Qed.

(** *** Access times under a clock that never goes back. *)
Lemma bounded_subseteq c (m m' : shelf_t) :
  m' ⊆ m -> bounded c m -> bounded c m'.
Proof.
  intros Hsub Hm d t Hd Hv. apply (Hm d t Hd).
  by eapply lookup_weaken.
Qed.

Lemma bounded_wrapper (fn : callable) args kwargs c now (s : state) :
  bounded c (shelf s) -> c <= now ->
  bounded now (shelf (wrapper repr fn args kwargs now s).2).
Proof.
  intros Hm Hc d t Hd.
  assert (Hins : forall m : shelf_t,
            (forall t', m !! atime_key d = Some (PyNum t') -> t' <= now) ->
            <[atime_key (ckey_of repr fn args kwargs) := PyNum now]> m
              !! atime_key d = Some (PyNum t) -> t <= now).
  { intros m Hold. rewrite lookup_insert. case_decide; [|apply Hold].
    intros [= <-]. lia. }
  assert (Hs : forall t', shelf s !! atime_key d = Some (PyNum t') -> t' <= now).
  { intros t' Hv. specialize (Hm d t' Hd Hv). lia. }
  destruct (wrapper_cases repr fn args kwargs now s)
    as [(v & Hv & ->)|[(v & w & Hv & Hcall & ->)|(e & w & _ & _ & ->)]];
    cbn [snd shelf].
  - by apply Hins.
  - apply Hins. intros t'. rewrite lookup_insert_ne; [apply Hs|].
    apply ckey_ne_atime.
  - apply Hs.
Qed.

Lemma bounded_exec c now (o : op_t) (s : state) :
  bounded c (shelf s) -> c <= now ->
  bounded now (shelf (exec repr other_lt s (now, o))).
Proof.
  intros Hm Hc. destruct o as [fn args kwargs|maxage|]; cbn [exec].
  - by eapply bounded_wrapper.
  - eapply bounded_subseteq; [apply clear_subseteq|].
    intros d t Hd Hv. specialize (Hm d t Hd Hv). lia.
  - rewrite stats_pure. intros d t Hd Hv. specialize (Hm d t Hd Hv). lia.
Qed.

Lemma bounded_run (steps : list (Z * op_t)) c c' (s : state) :
  bounded c (shelf s) -> clock_after c steps = Some c' ->
  bounded c' (shelf (run repr other_lt steps s)).
Proof.
  revert c s. unfold run.
  induction steps as [|[now o] steps IH]; intros c s Hm Hclock.
  - cbn in Hclock. by injection Hclock as <-.
  - cbn [clock_after] in Hclock. destruct (Z.leb_spec c now); [|done].
    cbn [fold_left]. apply (IH now); [|done]. by apply bounded_exec with c.
Qed.

End Invariants.

(** ** The operations of the cache *)
Section CacheProperties.

Context {V R W E : Type}.
Variable repr : V -> string.
Variable other_lt : pyobj R -> pyobj R -> bool.

Abbreviation state := (state R W).
Abbreviation callable := (callable V R W E).
Abbreviation op_t := (@op V R W E).

(** The outcome of a hit on [v] in state [s]: [v] is returned, only the
    access time is written, the world is untouched and nothing is
    invoked. *)
Abbreviation hit_on fn args kwargs now s v :=
  (wrapper repr fn args kwargs now s
   = (Ok v, State (<[atime_key (ckey_of repr fn args kwargs) := PyNum now]>
                     (shelf s))
                  (world s) (invocations s))).

Lemma keeps_run (steps : list (Z * op_t)) (s : state) d v :
  forallb keeps steps = true -> is_hexdigest d = true ->
  shelf s !! d = Some v ->
  shelf (run repr other_lt steps s) !! d = Some v.
Proof.
  revert s. unfold run.
  induction steps as [|[now o] steps IH]; intros s Hk Hd Hv; [done|].
  cbn [forallb] in Hk. apply andb_true_iff in Hk as [Ho Hk].
  cbn [fold_left]. apply IH; [done|done|].
  destruct o as [fn args kwargs|maxage|]; cbn [exec].
  - by apply wrapper_keeps.
  - done.
  - by rewrite stats_pure.
Qed.

(** C1: in every state where the key computed for a call has a stored
    value, the wrapped call returns that value and does not invoke the
    callable (the world and the count of invocations are as before);
    and once a call has returned [r] (a miss stores it), every later call
    with the same arguments, after any further wrapped calls and
    statistics queries, returns [r] without an invocation. *)
Theorem hit_skips_callable :
  (forall (fn : callable) args kwargs now (s : state) v,
      shelf s !! ckey_of repr fn args kwargs = Some v ->
      hit_on fn args kwargs now s v) /\
  (forall (fn : callable) args kwargs now0 (s0 s1 : state) r,
      shelf s0 !! ckey_of repr fn args kwargs = None ->
      wrapper repr fn args kwargs now0 s0 = (Ok r, s1) ->
      forall (steps : list (Z * op_t)) now,
        forallb keeps steps = true ->
        hit_on fn args kwargs now (run repr other_lt steps s1) r).
Proof.
  split.
  - intros. by apply wrapper_hit.
  - intros fn args kwargs now0 s0 s1 r _ Hcall steps now Hsteps.
    apply wrapper_hit, keeps_run; [done|apply hexdigest_is_hexdigest|].
    by eapply wrapper_stores.
Qed.

(** C2: a miss whose callable raises propagates the exception and leaves
    the shelf as it was: nothing is written under the key or under its
    access-time key. *)
Theorem failing_miss_writes_nothing (fn : callable) args kwargs now (s : state) e w :
  shelf s !! ckey_of repr fn args kwargs = None ->
  __call__ fn args kwargs (world s) = (inl e, w) ->
  let out := wrapper repr fn args kwargs now s in
  out.1 = Raise (Raised e) /\
  shelf out.2 = shelf s /\
  shelf out.2 !! ckey_of repr fn args kwargs = None /\
  shelf out.2 !! atime_key (ckey_of repr fn args kwargs)
  = shelf s !! atime_key (ckey_of repr fn args kwargs).
Proof.
  intros Hmiss Hcall out. subst out.
  rewrite (wrapper_raise repr fn args kwargs now s e w) by done.
  by cbn [fst snd shelf].
Qed.

(** C3: in every state reachable from a new cache by wrapped calls,
    [clear] with any [maxage] and [_stats], the value of a key is there
    exactly when its access time is, and every entry of the shelf is one
    or the other. *)
Theorem pairing_invariant (s : state) :
  reachable (E:=E) repr other_lt s ->
  (forall d, is_hexdigest d = true ->
             is_Some (shelf s !! d) <-> is_Some (shelf s !! atime_key d)) /\
  (forall k, is_Some (shelf s !! k) ->
             is_hexdigest k = true \/
             exists d, is_hexdigest d = true /\ k = atime_key d).
Proof.
  intros Hm%reachable_paired. split.
  - intros d Hd. split.
    + intros [v Hv]. destruct (Hm d v Hv) as [[_ Hat]|(d' & t & Heq & _)]; [done|].
      exfalso. by apply (atime_key_not_hexdigest d Hd d').
    + intros [v Hv]. by apply (paired_atime_key _ d v Hm) in Hv as (_ & _ & Hv).
  - intros k [v Hv].
    destruct (Hm k v Hv) as [[Hk _]|(d & t & -> & Hd & _)]; [by left|right].
    by exists d.
Qed.

(** C4: the key is a 40-character hexadecimal digest fixed by the name of
    the callable, the positional arguments and the set of keyword
    arguments: two computations agree, in whatever order the keyword
    arguments were inserted. *)
Theorem ckey_deterministic (fn fn' : callable) args kwargs kwargs' :
  __name__ fn = __name__ fn' ->
  NoDup kwargs.*1 ->
  kwargs ≡ₚ kwargs' ->
  ckey_of repr fn args kwargs = ckey_of repr fn' args kwargs' /\
  is_hexdigest (ckey_of repr fn args kwargs) = true.
Proof.
  intros Hname Hnd Hp. split; [|apply hexdigest_is_hexdigest].
  apply ckey_of_ext; [done|done|done|]. by apply fmap_Permutation.
Qed.

(** C5: with [maxage > 0] and the cutoff [now - maxage], [clear] returns
    and removes the value and the access time of exactly the keys whose
    access time is before the cutoff; a pair whose access time is at or
    after the cutoff is as before, and a call for it is a hit. *)
Theorem clear_evicts_stale maxage now (s : state) :
  reachable (E:=E) repr other_lt s ->
  0 < maxage ->
  let out := clear (E:=E) other_lt maxage now s in
  let cutoff := now - maxage in
  out.1 = Ok tt /\
  world out.2 = world s /\ invocations out.2 = invocations s /\
  (forall d t, shelf s !! atime_key d = Some (PyNum t) ->
     (t < cutoff ->
      shelf out.2 !! d = None /\ shelf out.2 !! atime_key d = None) /\
     (cutoff <= t ->
      shelf out.2 !! d = shelf s !! d /\
      shelf out.2 !! atime_key d = Some (PyNum t))) /\
  (forall k, is_Some (shelf s !! k) -> shelf out.2 !! k = None ->
     exists d t, shelf s !! atime_key d = Some (PyNum t) /\ t < cutoff /\
                 (k = atime_key d \/ k = d)) /\
  (forall (fn : callable) args kwargs t now',
     shelf s !! atime_key (ckey_of repr fn args kwargs) = Some (PyNum t) ->
     cutoff <= t ->
     exists v, shelf s !! ckey_of repr fn args kwargs = Some v /\
               hit_on fn args kwargs now' out.2 v).
Proof.
  intros Hm%reachable_paired Hpos out cutoff. subst out cutoff.
  rewrite clear_aged by done. cbn [fst snd shelf world invocations].
  assert (Hkept : forall d t, shelf s !! atime_key d = Some (PyNum t) ->
            now - maxage <= t ->
            forall k, k = atime_key d \/ k = d ->
            delete_all ((map_to_list (shelf s)).*1
                        ≫= outdated_at other_lt (shelf s) (now - maxage))
                       (shelf s) !! k = shelf s !! k).
  { intros d t Hv Hle k Hk. apply lookup_clear_kept; [done|].
    intros d' t' Hv' Hk'.
    destruct (paired_atime_key _ d _ Hm Hv) as (Hd & _ & _).
    destruct (paired_atime_key _ d' _ Hm Hv') as (Hd' & _ & _).
    assert (d = d') as <-.
    { destruct Hk as [->| ->], Hk' as [Heq|Heq].
      - by apply atime_key_inj.
      - exfalso. by apply (atime_key_not_hexdigest d' Hd' d).
      - exfalso. by apply (atime_key_not_hexdigest d Hd d').
      - done. }
    rewrite Hv in Hv'. injection Hv' as <-. done. }
  repeat split; try done.
  - by apply (lookup_clear_gone other_lt _ _ _ d t); auto.
  - by apply (lookup_clear_gone other_lt _ _ _ d t); auto.
  - by apply (Hkept d t); auto.
  - rewrite (Hkept d t); auto.
  - intros k [x Hx]. rewrite lookup_delete_all.
    destruct (decide _) as [Hin|]; [|congruence].
    intros _. by apply outdated_elem in Hin.
  - intros fn args kwargs t now' Hv Hle.
    destruct (paired_atime_key _ _ _ Hm Hv) as (_ & _ & [v Hstored]).
    exists v. split; [done|].
    apply (wrapper_hit repr fn args kwargs now'
             (State _ (world s) (invocations s)) v).
    cbn [shelf]. rewrite (Hkept _ t Hv Hle); [done|by right].
Qed.

(** C6: [clear] with [maxage <= 0] (the default is 0) returns and leaves
    no entry at all; [_stats] then counts zero; on an empty cache it
    changes nothing. *)
Theorem full_clear_empties maxage now (s : state) :
  maxage <= 0 ->
  let out := clear (E:=E) other_lt maxage now s in
  out = (Ok tt, State ∅ (world s) (invocations s)) /\
  (forall t, (_stats (E:=E) other_lt t out.2).1 = Ok (0, PyNum t, PyNum 0)) /\
  (shelf s = ∅ -> out.2 = s).
Proof.
  intros Hle out. subst out. rewrite clear_full by done.
  cbn [snd]. split; [done|split].
  - intros t. unfold _stats, bind, keys. cbn [shelf].
    by rewrite map_to_list_empty.
  - intros Hs. destruct s as [m w n]. cbn in *. by subst m.
Qed.

(** C7: a wrapped call that returns, hit or miss, ends by writing the
    current time as the access time of its key; when the clock has never
    gone back since the cache was new, this is not earlier than the
    access time the key had before the call. *)
Theorem timestamp_refreshed (fn : callable) args kwargs now (s s' : state) v :
  wrapper repr fn args kwargs now s = (Ok v, s') ->
  let ckey := ckey_of repr fn args kwargs in
  shelf s' !! atime_key ckey = Some (PyNum now) /\
  (exists m, shelf s' = <[atime_key ckey := PyNum now]> m /\
             (m = shelf s \/ m = <[ckey := v]> (shelf s))) /\
  (forall w (steps : list (Z * op_t)) c0 c t,
      s = run repr other_lt steps (fresh w) ->
      clock_after c0 steps = Some c ->
      c <= now ->
      shelf s !! atime_key ckey = Some (PyNum t) ->
      t <= now).
Proof.
  intros Hcall ckey. subst ckey. repeat split.
  - destruct (wrapper_cases repr fn args kwargs now s)
      as [(v' & _ & Heq)|[(v' & w & _ & _ & Heq)|(e & w & _ & _ & Heq)]];
      rewrite Heq in Hcall; simplify_eq; cbn [shelf]; apply lookup_insert_eq.
  - destruct (wrapper_cases repr fn args kwargs now s)
      as [(v' & _ & Heq)|[(v' & w & _ & _ & Heq)|(e & w & _ & _ & Heq)]];
      rewrite Heq in Hcall; simplify_eq; cbn [shelf]; eauto.
  - intros w steps c0 c t -> Hclock Hc Ht.
    assert (Hb : bounded c (shelf (run repr other_lt steps (fresh w)))).
    { apply (bounded_run repr other_lt steps c0); [|done].
      intros d t' _ Hv. unfold fresh in Hv. cbn [shelf] in Hv.
      by rewrite lookup_empty in Hv. }
    specialize (Hb _ t (hexdigest_is_hexdigest _) Ht). lia.
Qed.

(** C9: the key depends on the callable through its name only: after a
    call through [f] has returned [v], a call through any [g] of the same
    name, with arguments of the same representations, has the same key
    and returns [v] without invoking [g]. *)
Theorem same_name_shares_entry (f g : callable) args args' kwargs kwargs'
        now now' (s s1 : state) v :
  __name__ f = __name__ g ->
  repr <$> args = repr <$> args' ->
  NoDup kwargs.*1 ->
  kwreprs repr kwargs ≡ₚ kwreprs repr kwargs' ->
  wrapper repr f args kwargs now s = (Ok v, s1) ->
  ckey_of repr g args' kwargs' = ckey_of repr f args kwargs /\
  hit_on g args' kwargs' now' s1 v.
Proof.
  intros Hname Hargs Hnd Hkw Hcall.
  assert (Hkey : ckey_of repr g args' kwargs' = ckey_of repr f args kwargs).
  { symmetry. by apply ckey_of_ext. }
  split; [done|]. apply wrapper_hit. rewrite Hkey. by eapply wrapper_stores.
Qed.

(** *** What [_stats] counts *)
Abbreviation is_atime := (fun key : string => endswith key ":atime").

Lemma stats_count ks num oldest newest (s : state) :
  (forall k, k ∈ ks -> is_Some (shelf s !! k)) ->
  exists oldest' newest',
    for_each ks (stats_step (E:=E) other_lt) (num, oldest, newest) s
    = (Ok (num + Z.of_nat (length (List.filter is_atime ks)), oldest', newest'), s).
Proof.
  revert num oldest newest.
  induction ks as [|k ks IH]; intros num oldest newest Hks.
  - exists oldest, newest. cbn. by rewrite Z.add_0_r.
  - destruct (Hks k) as [v Hv]; [apply list_elem_of_here|].
    cbn [for_each List.filter]. unfold bind at 1.
    unfold stats_step at 1. unfold bind, getitem, ret.
    destruct (endswith k ":atime").
    + rewrite Hv. cbn beta iota. rewrite Hv.
      destruct (IH (num + 1) (py_min other_lt oldest v) (py_max other_lt newest v))
        as (o & n & ->); [intros; by apply Hks, list_elem_of_further|].
      exists o, n.
      replace (num + Z.of_nat (length (k :: List.filter is_atime ks)))
        with (num + 1 + Z.of_nat (length (List.filter is_atime ks)))
        by (cbn [length]; lia).
      done.
    + destruct (IH num oldest newest) as (o & n & ->);
        [intros; by apply Hks, list_elem_of_further|].
      by exists o, n.
Qed.

Lemma atime_keys_of_values (m : gmap string (pyobj R)) :
  paired m ->
  atime_key <$> List.filter is_hexdigest (map_to_list m).*1
  ≡ₚ List.filter is_atime (map_to_list m).*1.
Proof.
  intros Hm. pose proof (NoDup_fst_map_to_list m) as Hnd.
  apply NoDup_Permutation.
  - apply NoDup_fmap_2; [intros ? ?; apply atime_key_inj|].
    by apply NoDup_ListNoDup, List.NoDup_filter, NoDup_ListNoDup.
  - by apply NoDup_ListNoDup, List.NoDup_filter, NoDup_ListNoDup.
  - intros x. rewrite list_elem_of_fmap.
    setoid_rewrite list_elem_of_In. setoid_rewrite filter_In.
    setoid_rewrite <- list_elem_of_In. setoid_rewrite keys_spec. split.
    + intros (d & -> & [v Hv] & Hd). split; [|apply atime_key_endswith].
      destruct (Hm d v Hv) as [[_ Hat]|(d' & _ & Heq & _)]; [done|].
      exfalso. by apply (atime_key_not_hexdigest d Hd d').
    + intros ([v Hv] & Hx).
      destruct (paired_atime m x v Hm Hv Hx) as (d & t & -> & Hd & _ & Hmd).
      by exists d.
Qed.

(** C10: a key is 40 hexadecimal characters and so does not end with
    [":atime"]; in every reachable state the suffix test is true of the
    access-time entries and false of the value entries; the scan of
    [clear] collects nothing at a value key, and [_stats] counts as many
    entries as there are values. *)
Theorem suffix_test_separates :
  (forall (fn : callable) args kwargs,
      is_hexdigest (ckey_of repr fn args kwargs) = true /\
      String.length (ckey_of repr fn args kwargs) = 40%nat /\
      endswith (ckey_of repr fn args kwargs) ":atime" = false) /\
  (forall (s : state), reachable (E:=E) repr other_lt s ->
     forall k, is_Some (shelf s !! k) ->
       (endswith k ":atime" = false <-> is_hexdigest k = true) /\
       (endswith k ":atime" = true <->
        exists d t, is_hexdigest d = true /\ k = atime_key d /\
                    shelf s !! k = Some (PyNum t))) /\
  (forall (m : gmap string (pyobj R)) bigbang d,
      is_hexdigest d = true -> outdated_at other_lt m bigbang d = []) /\
  (forall (s : state) now, reachable (E:=E) repr other_lt s ->
     exists oldest newest,
       (_stats (E:=E) other_lt now s).1
       = Ok (Z.of_nat (length (List.filter is_hexdigest (map_to_list (shelf s)).*1)),
             oldest, newest)).
Proof.
  split; [|split; [|split]].
  - intros fn args kwargs.
    pose proof (ckey_of_is_hexdigest (R:=R) (W:=W) (E:=E) repr fn args kwargs) as Hd.
    split; [done|]. split; [by apply is_hexdigest_length|].
    by apply hexdigest_not_atime.
  - intros s Hm%reachable_paired k [v Hv].
    destruct (Hm k v Hv) as [[Hk _]|(d & t & -> & Hd & -> & _)].
    + pose proof (hexdigest_not_atime k Hk) as He. split; [done|].
      rewrite He. split; [done|].
      intros (d & t & Hd & -> & _). by rewrite atime_key_endswith in He.
    + rewrite atime_key_endswith. split.
      * split; [done|]. intros Hk. apply hexdigest_not_atime in Hk.
        by rewrite atime_key_endswith in Hk.
      * split; [|done]. intros _. by exists d, t.
  - intros m bigbang d Hd. unfold outdated_at.
    by rewrite hexdigest_not_atime.
  - intros s now Hm%reachable_paired. unfold _stats, bind, keys.
    destruct (stats_count (map_to_list (shelf s)).*1 0 (PyNum now) (PyNum 0) s)
      as (o & n & ->); [intros k; apply keys_spec|].
    exists o, n. cbn [fst].
    rewrite <- (atime_keys_of_values _ Hm), length_fmap. by rewrite Z.add_0_l.
Qed.

End CacheProperties.

(** ** The command line *)

(** Whenever [_main] prints its three lines, the last two carry the same
    age: line 123 formats [now - oldest] as line 122 does, and [newest] is
    not used. *)
Lemma main_lines_share_age {R W E} (other_lt : pyobj R -> pyobj R -> bool)
      argv files now t (w : W) l1 l2 l3 (r : result E unit) :
  _main other_lt argv files now t w = ([l1; l2; l3], r) ->
  exists a, l2 = "Oldest result usage age  : " ++ a /\
            l3 = "Latest result usage age  : " ++ a.
Proof.
  unfold _main. destruct (negb _); [done|].
  destruct (files !! _) as [sh|]; [|done].
  destruct (_stats _ _ _) as [[[[num oldest] newest]|e] c]; [|done].
  destruct oldest as [x|o]; cbn [py_sub]; unfold ret, raise; [|done].
  intros [= <- <- <- <-]. by eexists.
Qed.

(** C8: on a cache whose oldest access time is 100 and whose newest is
    900000, read when the clock says 1000000, [_main] prints the age of the
    oldest access time on the line of the latest one as well ("11d"), though
    [_stats] has returned the newest access time, whose age is "27h". *)
Theorem main_latest_line_repeats_oldest :
  (_stats (E:=string) Client.other_lt 1000000 Client.s2).1
  = Ok (2, PyNum 100, PyNum 900000) /\
  (_main (E:=string) Client.other_lt ["percache.py"; "cache.db"] Client.files
         1000000 1000000 0%nat)
  = (["Number of cached results : 2";
      "Oldest result usage age  : 11d";
      "Latest result usage age  : 11d"], Ok tt) /\
  latest_line 1000000 (PyNum (R:=Empty_set) 900000)
  = Some "Latest result usage age  : 27h".
Proof. vm_compute. repeat split. Qed.

(** ** Runs of the client *)

(** [square(4)] is computed once and served from the cache the second time;
    [square(5)] is computed; the statistics count two results. *)
Example square_scenario :
  let r1 := wrapper Client.repr Client.square [4] [] 10 Client.s0 in
  let r2 := wrapper Client.repr Client.square [4] [] 20 r1.2 in
  let r3 := wrapper Client.repr Client.square [5] [] 30 r2.2 in
  (r1.1, world r1.2) = (Ok (PyNum 16), 1%nat) /\
  (r2.1, world r2.2) = (Ok (PyNum 16), 1%nat) /\
  (r3.1, world r3.2) = (Ok (PyNum 25), 2%nat) /\
  (_stats (E:=string) Client.other_lt 40 r3.2).1 = Ok (2, PyNum 20, PyNum 30).
Proof. vm_compute. repeat split. Qed.

(** With access times 100 and 900000, [clear(500)] at time 900100 evicts
    the first result and keeps the second. *)
Example clear_session :
  let s := (clear (E:=string) Client.other_lt 500 900100 Client.s2).2 in
  shelf s !! Client.key4 = None /\
  shelf s !! atime_key Client.key4 = None /\
  shelf s !! Client.key5 = Some (PyNum 25) /\
  shelf s !! atime_key Client.key5 = Some (PyNum 900000).
Proof. vm_compute. repeat split. Qed.

(** On a shelf that is not paired, here an access time without its value,
    the deletion loop of [clear] raises [KeyError]. *)
Example clear_unpaired_raises :
  (clear (E:=string) Client.other_lt 1 100
         (State {[ "x:atime" := PyNum 0 ]} 0%nat 0%nat)).1
  = Raise (KeyError "x").
Proof. vm_compute. reflexivity. Qed.

(** ** The properties at the client [square] *)

Lemma hit_skips_callable_witness :
  (shelf Client.s1 !! ckey_of Client.repr Client.square [4] [] = Some (PyNum 16) /\
   wrapper Client.repr Client.square [4] [] 20 Client.s1
   = (Ok (PyNum 16),
      State (<[atime_key (ckey_of Client.repr Client.square [4] []) := PyNum 20]>
               (shelf Client.s1))
            (world Client.s1) (invocations Client.s1))) /\
  (shelf Client.s0 !! ckey_of Client.repr Client.square [4] [] = None /\
   wrapper Client.repr Client.square [4] [] 10 Client.s0 = (Ok (PyNum 16), Client.s1) /\
   forallb keeps Client.session = true /\
   wrapper Client.repr Client.square [4] [] 900002
           (run Client.repr Client.other_lt Client.session Client.s1)
   = (Ok (PyNum 16),
      State (<[atime_key (ckey_of Client.repr Client.square [4] []) := PyNum 900002]>
               (shelf (run Client.repr Client.other_lt Client.session Client.s1)))
            (world (run Client.repr Client.other_lt Client.session Client.s1))
            (invocations (run Client.repr Client.other_lt Client.session Client.s1)))).
Proof.
  split.
  - split; [vm_compute; reflexivity|].
    apply (proj1 (hit_skips_callable Client.repr Client.other_lt)).
    vm_compute; reflexivity.
  - split; [vm_compute; reflexivity|].
    split; [vm_compute; reflexivity|].
    split; [reflexivity|].
    apply (proj2 (hit_skips_callable Client.repr Client.other_lt)
                 Client.square [4] [] 10 Client.s0 Client.s1 (PyNum 16)).
    + vm_compute; reflexivity.
    + vm_compute; reflexivity.
    + reflexivity.
Defined.

Lemma failing_miss_writes_nothing_witness :
  shelf Client.s1 !! ckey_of Client.repr Client.failing [] [] = None /\
  __call__ Client.failing [] [] (world Client.s1) = (inl "ValueError", 2%nat) /\
  (wrapper Client.repr Client.failing [] [] 30 Client.s1).1
  = Raise (Raised "ValueError") /\
  shelf (wrapper Client.repr Client.failing [] [] 30 Client.s1).2 = shelf Client.s1.
Proof.
  assert (Hmiss : shelf Client.s1 !! ckey_of Client.repr Client.failing [] [] = None)
    by (vm_compute; reflexivity).
  assert (Hcall : __call__ Client.failing [] [] (world Client.s1)
                  = (inl "ValueError", 2%nat)) by (vm_compute; reflexivity).
  split; [exact Hmiss|]. split; [exact Hcall|].
  destruct (failing_miss_writes_nothing Client.repr Client.failing [] [] 30
              Client.s1 "ValueError" 2%nat Hmiss Hcall) as (Hout & Hshelf & _).
  split; [exact Hout|exact Hshelf].
Defined.

Lemma pairing_invariant_witness :
  reachable (E:=string) Client.repr Client.other_lt Client.s2 /\
  (is_Some (shelf Client.s2 !! Client.key4)
   <-> is_Some (shelf Client.s2 !! atime_key Client.key4)).
Proof.
  assert (Hreach : reachable (E:=string) Client.repr Client.other_lt Client.s2)
    by (exists 0%nat, Client.session; reflexivity).
  split; [exact Hreach|].
  apply (proj1 (pairing_invariant Client.repr Client.other_lt Client.s2 Hreach)).
  vm_compute; reflexivity.
Defined.

Lemma ckey_deterministic_witness :
  __name__ Client.square = __name__ Client.cube /\
  NoDup [("b", 1); ("a", 2)].*1 /\
  [("b", 1); ("a", 2)] ≡ₚ [("a", 2); ("b", 1)] /\
  ckey_of Client.repr Client.square [4] [("b", 1); ("a", 2)]
  = ckey_of Client.repr Client.cube [4] [("a", 2); ("b", 1)].
Proof.
  assert (Hnd : NoDup [("b", 1); ("a", 2)].*1)
    by (apply NoDup_cons; split;
        [by intros H%list_elem_of_singleton | apply NoDup_singleton]).
  split; [reflexivity|]. split; [exact Hnd|]. split; [apply perm_swap|].
  apply (ckey_deterministic Client.repr Client.square Client.cube [4]
           [("b", 1); ("a", 2)] [("a", 2); ("b", 1)] eq_refl Hnd (perm_swap _ _ _)).
Defined.

Lemma clear_evicts_stale_witness :
  reachable (E:=string) Client.repr Client.other_lt Client.s2 /\
  0 < 500 /\
  shelf Client.s2 !! atime_key Client.key4 = Some (PyNum 100) /\
  shelf Client.s2 !! atime_key Client.key5 = Some (PyNum 900000) /\
  (clear (E:=string) Client.other_lt 500 900100 Client.s2).1 = Ok tt /\
  shelf (clear (E:=string) Client.other_lt 500 900100 Client.s2).2
    !! Client.key4 = None /\
  shelf (clear (E:=string) Client.other_lt 500 900100 Client.s2).2
    !! Client.key5 = shelf Client.s2 !! Client.key5.
Proof.
  assert (Hreach : reachable (E:=string) Client.repr Client.other_lt Client.s2)
    by (exists 0%nat, Client.session; reflexivity).
  assert (Hpos : 0 < 500) by lia.
  assert (H4 : shelf Client.s2 !! atime_key Client.key4 = Some (PyNum 100))
    by (vm_compute; reflexivity).
  assert (H5 : shelf Client.s2 !! atime_key Client.key5 = Some (PyNum 900000))
    by (vm_compute; reflexivity).
  assert (Hstale : 100 < 900100 - 500) by lia.
  assert (Hrecent : 900100 - 500 <= 900000) by lia.
  pose proof (clear_evicts_stale Client.repr Client.other_lt 500 900100 Client.s2
                Hreach Hpos) as H.
  cbv zeta in H. destruct H as (Hok & _ & _ & Hpairs & _ & _).
  split; [exact Hreach|]. split; [exact Hpos|]. split; [exact H4|].
  split; [exact H5|]. split; [exact Hok|]. split.
  - exact (proj1 (proj1 (Hpairs Client.key4 100 H4) Hstale)).
  - exact (proj1 (proj2 (Hpairs Client.key5 900000 H5) Hrecent)).
Defined.

Lemma full_clear_empties_witness :
  0 <= 0 /\
  clear (E:=string) Client.other_lt 0 900100 Client.s2
  = (Ok tt, State ∅ (world Client.s2) (invocations Client.s2)).
Proof.
  assert (Hle : 0 <= 0) by lia.
  split; [exact Hle|].
  apply (full_clear_empties (E:=string) Client.other_lt 0 900100 Client.s2 Hle).
Defined.

Lemma timestamp_refreshed_witness :
  wrapper Client.repr Client.square [4] [] 900002 Client.s2
  = (Ok (PyNum 16), (wrapper Client.repr Client.square [4] [] 900002 Client.s2).2) /\
  clock_after 0 Client.session = Some 900001 /\
  shelf Client.s2 !! atime_key Client.key4 = Some (PyNum 100) /\
  shelf (wrapper Client.repr Client.square [4] [] 900002 Client.s2).2
    !! atime_key Client.key4 = Some (PyNum 900002) /\
  100 <= 900002.
Proof.
  assert (Hcall : wrapper Client.repr Client.square [4] [] 900002 Client.s2
                  = (Ok (PyNum 16),
                     (wrapper Client.repr Client.square [4] [] 900002 Client.s2).2))
    by (vm_compute; reflexivity).
  assert (Hclock : clock_after 0 Client.session = Some 900001) by reflexivity.
  assert (Hbefore : shelf Client.s2 !! atime_key Client.key4 = Some (PyNum 100))
    by (vm_compute; reflexivity).
  assert (Hlater : 900001 <= 900002) by lia.
  destruct (timestamp_refreshed Client.repr Client.other_lt Client.square [4] []
              900002 Client.s2 _ (PyNum 16) Hcall) as (Hafter & _ & Hmono).
  split; [exact Hcall|]. split; [exact Hclock|]. split; [exact Hbefore|].
  split; [exact Hafter|].
  exact (Hmono 0%nat Client.session 0 900001 100 eq_refl Hclock Hlater Hbefore).
Defined.

Lemma same_name_shares_entry_witness :
  __name__ Client.square = __name__ Client.cube /\
  Client.repr <$> [4] = Client.repr <$> [4] /\
  wrapper Client.repr Client.square [4] [] 10 Client.s0 = (Ok (PyNum 16), Client.s1) /\
  wrapper Client.repr Client.cube [4] [] 20 Client.s1
  = (Ok (PyNum 16),
     State (<[atime_key (ckey_of Client.repr Client.cube [4] []) := PyNum 20]>
              (shelf Client.s1))
           (world Client.s1) (invocations Client.s1)).
Proof.
  assert (Hcall : wrapper Client.repr Client.square [4] [] 10 Client.s0
                  = (Ok (PyNum 16), Client.s1)) by (vm_compute; reflexivity).
  split; [reflexivity|]. split; [reflexivity|]. split; [exact Hcall|].
  apply (same_name_shares_entry Client.repr Client.square Client.cube [4] [4] [] []
           10 20 Client.s0 Client.s1 (PyNum 16) eq_refl eq_refl
           NoDup_nil_2 (Permutation_refl _) Hcall).
Defined.

Lemma suffix_test_separates_witness :
  reachable (E:=string) Client.repr Client.other_lt Client.s2 /\
  is_Some (shelf Client.s2 !! Client.key5) /\
  (endswith Client.key5 ":atime" = false <-> is_hexdigest Client.key5 = true).
Proof.
  assert (Hreach : reachable (E:=string) Client.repr Client.other_lt Client.s2)
    by (exists 0%nat, Client.session; reflexivity).
  assert (Hsome : is_Some (shelf Client.s2 !! Client.key5))
    by (vm_compute; eauto).
  split; [exact Hreach|]. split; [exact Hsome|].
  apply (proj1 (proj2 (suffix_test_separates Client.repr Client.other_lt))
           Client.s2 Hreach Client.key5 Hsome).
Defined.

(** * Further properties of the code *)

(** ** [age]: the unit printed *)

(** X1: [age] always returns a string.  It prints days from two days on,
    hours from two hours on, minutes from two minutes on and seconds below
    that (also for an age that is zero or negative); so the number before
    [d], [h] or [m] is never below 2. *)
Theorem age_units (s : Z) :
  age s = Some (if 172800 <=? s then format_d (s / 86400) ++ "d"
                else if 7200 <=? s then format_d (s / 3600) ++ "h"
                else if 120 <=? s then format_d (s / 60) ++ "m"
                else format_d s ++ "s").
Proof.
  unfold age, age_loop.
  assert (Hd : (s / 86400 >? 1) = (172800 <=? s)).
  { destruct (Z.leb_spec 172800 s), (Z.gtb_spec (s / 86400) 1); try done;
      pose proof (Z.div_mod s 86400); pose proof (Z.mod_pos_bound s 86400); lia. }
  assert (Hh : (s / 3600 >? 1) = (7200 <=? s)).
  { destruct (Z.leb_spec 7200 s), (Z.gtb_spec (s / 3600) 1); try done;
      pose proof (Z.div_mod s 3600); pose proof (Z.mod_pos_bound s 3600); lia. }
  assert (Hm : (s / 60 >? 1) = (120 <=? s)).
  { destruct (Z.leb_spec 120 s), (Z.gtb_spec (s / 60) 1); try done;
      pose proof (Z.div_mod s 60); pose proof (Z.mod_pos_bound s 60); lia. }
  rewrite Hd, Hh, Hm.
  destruct (172800 <=? s); [done|]. destruct (7200 <=? s); [done|].
  destruct (120 <=? s); [done|]. cbn [orb String.eqb]. by rewrite orb_true_r.
Qed.

(** ** [_stats], [clear] and the wrapper, further *)
Section MoreProperties.

Context {V R W E : Type}.
Variable repr : V -> string.
Variable other_lt : pyobj R -> pyobj R -> bool.

Abbreviation state := (state R W).
Abbreviation callable := (callable V R W E).
Abbreviation op_t := (@op V R W E).
Abbreviation shelf_t := (gmap string (pyobj R)).

(** The loop of [_stats] over keys that are in a paired shelf: the running
    minimum and maximum of the access times met. *)
Lemma stats_loop_extremes ks num o0 n0 (s : state) :
  paired (shelf s) ->
  (forall k, k ∈ ks -> is_Some (shelf s !! k)) ->
  exists num' o n,
    for_each ks (stats_step (E:=E) other_lt) (num, PyNum o0, PyNum n0) s
    = (Ok (num', PyNum o, PyNum n), s) /\
    o <= o0 /\ n0 <= n /\
    (forall d t, atime_key d ∈ ks -> shelf s !! atime_key d = Some (PyNum t) ->
                 o <= t <= n) /\
    (o = o0 \/ exists d, atime_key d ∈ ks /\ shelf s !! atime_key d = Some (PyNum o)) /\
    (n = n0 \/ exists d, atime_key d ∈ ks /\ shelf s !! atime_key d = Some (PyNum n)).
Proof.
  intros Hm. revert num o0 n0.
  induction ks as [|k ks IH]; intros num o0 n0 Hks.
  - exists num, o0, n0. split; [done|]. split; [lia|]. split; [lia|].
    split; [|split; by left]. intros d t Hd. by apply elem_of_nil in Hd.
  - destruct (Hks k) as [v Hv]; [apply list_elem_of_here|].
    assert (Hks' : forall k', k' ∈ ks -> is_Some (shelf s !! k'))
      by (intros; by apply Hks, list_elem_of_further).
    cbn [for_each]. unfold bind at 1. unfold stats_step at 1.
    unfold bind, getitem, ret.
    destruct (endswith k ":atime") eqn:He.
    + destruct (paired_atime _ k v Hm Hv He) as (d0 & t0 & -> & Hd0 & -> & _).
      rewrite Hv. cbn beta iota. rewrite Hv.
      unfold py_min, py_max. cbn [py_lt].
      destruct (IH (num + 1) (if t0 <? o0 then t0 else o0)
                   (if n0 <? t0 then t0 else n0) Hks')
        as (num' & o & n & Heq & Ho & Hn & Hall & Homin & Hnmax).
      exists num', o, n. split.
      { rewrite <- Heq. by destruct (t0 <? o0), (n0 <? t0). }
      assert (o <= o0 /\ o <= t0) as [? ?] by (destruct (Z.ltb_spec t0 o0); lia).
      assert (n0 <= n /\ t0 <= n) as [? ?] by (destruct (Z.ltb_spec n0 t0); lia).
      split; [done|]. split; [done|]. split; [|split].
      * intros d t [Hd|Hd]%elem_of_cons Ht.
        -- apply atime_key_inj in Hd as ->. rewrite Hv in Ht.
           injection Ht as <-. lia.
        -- by apply (Hall d t).
      * destruct Homin as [->|(d & Hd & Hod)].
        -- destruct (Z.ltb_spec t0 o0); [right|by left].
           exists d0. split; [apply list_elem_of_here|done].
        -- right. exists d. split; [by apply list_elem_of_further|done].
      * destruct Hnmax as [->|(d & Hd & Hnd)].
        -- destruct (Z.ltb_spec n0 t0); [right|by left].
           exists d0. split; [apply list_elem_of_here|done].
        -- right. exists d. split; [by apply list_elem_of_further|done].
    + destruct (IH num o0 n0 Hks')
        as (num' & o & n & Heq & Ho & Hn & Hall & Homin & Hnmax).
      exists num', o, n. split; [done|]. split; [done|]. split; [done|].
      split; [|split].
      * intros d t [Hd|Hd]%elem_of_cons Ht; [|by apply (Hall d t)].
        rewrite <- Hd, atime_key_endswith in He. done.
      * destruct Homin as [->|(d & Hd & Hod)]; [by left|right].
        exists d. split; [by apply list_elem_of_further|done].
      * destruct Hnmax as [->|(d & Hd & Hnd)]; [by left|right].
        exists d. split; [by apply list_elem_of_further|done].
Qed.

(** X2: on a reachable state [_stats] returns without raising and leaves
    the state as it is; [oldest] is the minimum of the clock reading and of
    all access times, [newest] the maximum of 0 and of all access times. *)
Theorem stats_extremes now (s : state) :
  reachable (E:=E) repr other_lt s ->
  exists num oldest newest,
    _stats (E:=E) other_lt now s = (Ok (num, PyNum oldest, PyNum newest), s) /\
    oldest <= now /\ 0 <= newest /\
    (forall d t, shelf s !! atime_key d = Some (PyNum t) -> oldest <= t <= newest) /\
    (oldest = now \/ exists d, shelf s !! atime_key d = Some (PyNum oldest)) /\
    (newest = 0 \/ exists d, shelf s !! atime_key d = Some (PyNum newest)).
Proof.
  intros Hm%reachable_paired. unfold _stats, bind, keys.
  destruct (stats_loop_extremes (map_to_list (shelf s)).*1 0 now 0 s Hm)
    as (num & o & n & -> & Ho & Hn & Hall & Homin & Hnmax);
    [intros k; apply keys_spec|].
  exists num, o, n. split; [done|]. split; [done|]. split; [done|].
  split; [|split].
  - intros d t Ht. apply (Hall d t); [|done]. apply keys_spec. eauto.
  - destruct Homin as [->|(d & _ & Hd)]; [by left|right; by exists d].
  - destruct Hnmax as [->|(d & _ & Hd)]; [by left|right; by exists d].
Qed.

(** *** The command line *)

(** X3: called with an argument count other than one, [_main] prints the
    usage line with the program name and exits with status 1; called with
    the path of a file that does not exist, it prints "no such cache file"
    and exits with status 1.  No cache is read in either case. *)
Theorem main_rejects (prog : string) (rest : list string) files now t (w : W) :
  (length rest <> 1%nat ->
   _main (E:=E) other_lt (prog :: rest) files now t w
   = (["Usage: " ++ prog ++ " CACHEFILE"], Raise (SystemExit 1))) /\
  (forall path, rest = [path] -> files !! path = None ->
   _main (E:=E) other_lt (prog :: rest) files now t w
   = (["no such cache file"], Raise (SystemExit 1))).
Proof.
  split.
  - intros Hlen. unfold _main. cbn [length nth].
    destruct (Nat.eqb_spec (S (length rest)) 2) as [Heq|_]; [lia|done].
  - intros path -> Hnone. unfold _main. cbn [length nth negb Nat.eqb].
    by rewrite Hnone.
Qed.

(** X4: on a cache file holding the shelf of a reachable state, [_main]
    prints its three lines and returns: no [TypeError], no [KeyError].  The
    first line has the number of cached results, the other two the age of
    the oldest access time (or of the reading of [_stats] when that is
    earlier, as on an empty cache). *)
Theorem main_reports (prog path : string) files now t (w : W) (s : state) :
  reachable (E:=E) repr other_lt s ->
  files !! path = Some (shelf s) ->
  exists oldest,
    oldest <= t /\
    (forall d t', shelf s !! atime_key d = Some (PyNum t') -> oldest <= t') /\
    (oldest = t \/ exists d, shelf s !! atime_key d = Some (PyNum oldest)) /\
    _main (E:=E) other_lt [prog; path] files now t w
    = (["Number of cached results : "
        ++ format_d (Z.of_nat (length (List.filter is_hexdigest
                                         (map_to_list (shelf s)).*1)));
        "Oldest result usage age  : " ++ format_s (age (now - oldest));
        "Latest result usage age  : " ++ format_s (age (now - oldest))],
       Ok tt).
Proof.
  intros Hm%reachable_paired Hfile.
  set (c := State (shelf s) w 0%nat).
  destruct (stats_loop_extremes (map_to_list (shelf c)).*1 0 t 0 c Hm)
    as (num & o & n & Heq & Ho & Hn & Hall & Homin & _);
    [intros k; apply keys_spec|].
  destruct (stats_count (E:=E) other_lt (map_to_list (shelf c)).*1 0 (PyNum t) (PyNum 0) c)
    as (o' & n' & Hcount); [intros k; apply keys_spec|].
  rewrite Hcount in Heq. injection Heq as Hnum -> ->.
  subst c. cbn [shelf] in *.
  rewrite <- (atime_keys_of_values _ Hm), length_fmap, Z.add_0_l in Hcount.
  exists o. split; [done|]. split; [|split].
  - intros d t' Ht'. apply (Hall d t'); [|done]. apply keys_spec. eauto.
  - destruct Homin as [->|(d & _ & Hd)]; [by left|right; by exists d].
  - unfold _main. cbn [length nth negb Nat.eqb]. rewrite Hfile.
    unfold _stats, bind, keys. cbn [shelf]. rewrite Hcount. reflexivity.
Qed.

(** *** The wrapper *)




(** *** The count of [_stats] along calls *)






(** *** [clear], on any shelf *)

Lemma delete_loop_cons k (l : list string) (s : state) :
  for_each (k :: l) (fun _ key => delitem (E:=E) key) tt s
  = match shelf s !! k with
    | Some _ => for_each l (fun _ key => delitem (E:=E) key) tt
                  (State (delete k (shelf s)) (world s) (invocations s))
    | None => (Raise (KeyError k), s)
    end.
Proof.
  cbn [for_each]. unfold bind, delitem at 1. by destruct (shelf s !! k).
Qed.

Lemma delete_loop_frame (l : list string) (s : state) :
  let out := for_each l (fun _ key => delitem (E:=E) key) tt s in
  world out.2 = world s /\ invocations out.2 = invocations s /\
  (out.1 = Ok tt \/ exists k, out.1 = Raise (KeyError k) /\ k ∈ l).
Proof.
  revert s. induction l as [|k l IH]; intros s; cbn zeta.
  - cbn. auto.
  - rewrite delete_loop_cons. destruct (shelf s !! k).
    + destruct (IH (State (delete k (shelf s)) (world s) (invocations s)))
        as (Hw & Hi & Hr). cbn zeta in *. cbn [world invocations] in *.
      split; [done|]. split; [done|].
      destruct Hr as [Hr|(k' & Hr & Hk')]; [by left|right].
      exists k'. split; [done|]. by apply list_elem_of_further.
    + cbn. split; [done|]. split; [done|]. right. exists k.
      split; [done|]. apply list_elem_of_here.
Qed.

(** With a positive [maxage], [clear] is the deletion loop over what the
    scan collects, on any shelf. *)
Lemma clear_aged_loop maxage now (s : state) :
  0 < maxage ->
  clear (E:=E) other_lt maxage now s
  = for_each ((map_to_list (shelf s)).*1
              ≫= outdated_at other_lt (shelf s) (now - maxage))
             (fun _ key => delitem (E:=E) key) tt s.
Proof.
  intros Hpos. unfold clear. destruct (Z.gtb_spec maxage 0); [|lia].
  unfold bind at 1. unfold keys at 1. unfold bind at 1.
  by rewrite scan_spec by (intros k; apply keys_spec).
Qed.

(** X9: whatever the shelf and whatever [maxage], [clear] only removes
    entries (it adds and changes none), does not touch the world, invokes
    no callable, and the only exception it can raise is a [KeyError]. *)
Theorem clear_only_deletes maxage now (s : state) :
  let out := clear (E:=E) other_lt maxage now s in
  shelf out.2 ⊆ shelf s /\
  world out.2 = world s /\
  invocations out.2 = invocations s /\
  (out.1 = Ok tt \/ exists k, out.1 = Raise (KeyError k)).
Proof.
  cbn zeta. split; [apply clear_subseteq|].
  destruct (Z.le_gt_cases maxage 0) as [Hle|Hpos].
  - rewrite clear_full by done. cbn. auto.
  - rewrite clear_aged_loop by lia.
    destruct (delete_loop_frame
                ((map_to_list (shelf s)).*1
                 ≫= outdated_at other_lt (shelf s) (now - maxage)) s)
      as (Hw & Hi & Hr). cbn zeta in *.
    split; [done|]. split; [done|].
    destruct Hr as [Hr|(k & Hr & _)]; [by left|right; by exists k].
Qed.

Lemma delete_loop_missing (l : list string) (s : state) k :
  k ∈ l -> shelf s !! k = None ->
  exists k', (for_each l (fun _ key => delitem (E:=E) key) tt s).1
             = Raise (KeyError k').
Proof.
  revert s. induction l as [|x l IH]; intros s Hk Hnone.
  - by apply elem_of_nil in Hk.
  - rewrite delete_loop_cons.
    destruct (shelf s !! x) eqn:Hx; [|by exists x].
    apply elem_of_cons in Hk as [->|Hk]; [congruence|].
    apply IH; [done|]. cbn [shelf]. rewrite lookup_delete_ne; [done|].
    intros ->. congruence.
Qed.

(** X10: when an access time older than the cutoff has no value entry
    beside it, [clear] with a positive [maxage] raises [KeyError]: the
    deletion loop deletes both keys of every outdated pair without a
    test. *)
Theorem clear_missing_value_raises maxage now (s : state) d t :
  0 < maxage ->
  shelf s !! atime_key d = Some (PyNum t) ->
  t < now - maxage ->
  shelf s !! d = None ->
  exists k, (clear (E:=E) other_lt maxage now s).1 = Raise (KeyError k).
Proof.
  intros Hpos Ht Hlt Hnone. rewrite clear_aged_loop by done.
  apply (delete_loop_missing _ s d); [|done].
  apply list_elem_of_bind. exists (atime_key d). split.
  - rewrite (outdated_at_stale other_lt (shelf s) (now - maxage) d t) by done.
    apply list_elem_of_further, list_elem_of_here.
  - apply keys_spec. eauto.
Qed.

(** *** [clear], composed *)

Lemma bind_all_nil {A B} (f : A -> list B) (l : list A) :
  (forall x, x ∈ l -> f x = []) -> l ≫= f = [].
Proof.
  induction l as [|x l IH]; intros Hf; [done|].
  change ((x :: l) ≫= f) with (f x ++ (l ≫= f))%list.
  rewrite Hf by apply list_elem_of_here. cbn [app].
  apply IH. intros; by apply Hf, list_elem_of_further.
Qed.

(** What [clear] leaves has no access time before the cutoff. *)
Lemma clear_aged_survivors (m : shelf_t) bigbang d t :
  paired m ->
  delete_all ((map_to_list m).*1 ≫= outdated_at other_lt m bigbang) m
    !! atime_key d = Some (PyNum t) ->
  bigbang <= t.
Proof.
  intros Hm. rewrite lookup_delete_all.
  destruct (decide _) as [|Hnin]; [done|]. intros Ht.
  destruct (Z.le_gt_cases bigbang t) as [|Hlt]; [done|].
  exfalso. apply Hnin, outdated_elem; [done|]. exists d, t.
  split; [done|]. split; [lia|by left].
Qed.

(** X11: on a reachable state, a [clear] with a positive [maxage] followed
    by another one whose cutoff is not later finds nothing to remove: the
    second call returns and changes nothing. *)
Theorem clear_again_is_noop maxage now maxage' now' (s : state) :
  reachable (E:=E) repr other_lt s ->
  0 < maxage -> 0 < maxage' ->
  now' - maxage' <= now - maxage ->
  let s1 := (clear (E:=E) other_lt maxage now s).2 in
  clear (E:=E) other_lt maxage' now' s1 = (Ok tt, s1).
Proof.
  intros Hm%reachable_paired Hpos Hpos' Hcut s1.
  assert (Hm1 : paired (shelf s1)) by by apply paired_clear.
  rewrite clear_aged by done.
  assert (Hnil : (map_to_list (shelf s1)).*1
                 ≫= outdated_at other_lt (shelf s1) (now' - maxage') = []).
  { apply bind_all_nil. intros k [v Hv]%keys_spec. unfold outdated_at.
    destruct (endswith k ":atime") eqn:He; [|done]. rewrite Hv.
    destruct (paired_atime _ k v Hm1 Hv He) as (d & t & -> & _ & -> & _).
    cbn [py_lt]. destruct (Z.ltb_spec t (now' - maxage')) as [Hlt|]; [|done].
    exfalso. subst s1. rewrite clear_aged in Hv by done. cbn [snd shelf] in Hv.
    apply clear_aged_survivors in Hv; [lia|done]. }
  rewrite Hnil. unfold delete_all. cbn [fold_left]. by destruct s1.
Qed.

(** X12: after a [clear] with a positive [maxage] on a reachable state,
    [_stats] read at or after the cutoff reports an oldest access time
    that is not before the cutoff. *)
Theorem clear_bounds_oldest maxage now t (s : state) :
  reachable (E:=E) repr other_lt s ->
  0 < maxage ->
  now - maxage <= t ->
  exists num oldest newest,
    (_stats (E:=E) other_lt t (clear (E:=E) other_lt maxage now s).2).1
    = Ok (num, PyNum oldest, PyNum newest) /\
    now - maxage <= oldest.
Proof.
  intros Hreach Hpos Ht.
  assert (Hreach' : reachable (E:=E) repr other_lt
                      (clear (E:=E) other_lt maxage now s).2).
  { destruct Hreach as (w & steps & ->).
    exists w, (steps ++ [(now, Clear maxage)])%list.
    unfold run. by rewrite fold_left_app. }
  destruct (stats_extremes t _ Hreach')
    as (num & o & n & Heq & _ & _ & _ & Homin & _).
  exists num, o, n. rewrite Heq. split; [done|].
  destruct Homin as [->|(d & Hd)]; [done|].
  apply reachable_paired in Hreach.
  rewrite clear_aged in Hd by done. cbn [snd shelf] in Hd.
  by apply clear_aged_survivors in Hd.
Qed.

(** X13: on a reachable state, once [clear] has emptied the cache
    ([maxage <= 0]) or has evicted the key of a call (its access time was
    before the cutoff), the next call with these arguments is a miss: the
    callable is invoked again and its result is stored anew. *)
Theorem evicted_is_recomputed (fn : callable) args kwargs maxage now now' (s : state) v w :
  reachable (E:=E) repr other_lt s ->
  (maxage <= 0 \/
   exists t, shelf s !! atime_key (ckey_of repr fn args kwargs) = Some (PyNum t) /\
             t < now - maxage) ->
  __call__ fn args kwargs (world s) = (inr v, w) ->
  let s1 := (clear (E:=E) other_lt maxage now s).2 in
  wrapper repr fn args kwargs now' s1
  = (Ok v, State (<[atime_key (ckey_of repr fn args kwargs) := PyNum now']>
                    (<[ckey_of repr fn args kwargs := v]> (shelf s1)))
                 w (S (invocations s))).
Proof.
  intros Hm%reachable_paired Hgone Hcall s1.
  destruct (clear_only_deletes maxage now s) as (_ & Hw & Hi & _).
  cbn zeta in Hw, Hi. fold s1 in Hw, Hi. rewrite <- Hi.
  apply wrapper_miss; [|by rewrite Hw].
  subst s1. destruct (Z.le_gt_cases maxage 0) as [Hle|Hpos].
  - rewrite clear_full by done. apply lookup_empty.
  - destruct Hgone as [Hle|(t & Ht & Hlt)]; [lia|].
    rewrite clear_aged by done. cbn [snd shelf].
    apply (lookup_clear_gone other_lt _ _ _ (ckey_of repr fn args kwargs) t);
      auto.
Qed.

(** *** The key, across argument boundaries *)

Lemma string_app_nil_r (a : string) : a ++ "" = a.
Proof. induction a as [|x a IH]; [done|]. by rewrite string_app_cons, IH. Qed.

Lemma string_app_assoc (a b c : string) : (a ++ b) ++ c = a ++ (b ++ c).
Proof. induction a as [|x a IH]; [done|]. by rewrite !string_app_cons, IH. Qed.

Lemma fold_update_concat (rs : list string) (h : Sha1.hasher) :
  fold_left (fun h r => Sha1.update h r) rs h = h ++ String.concat "" rs.
Proof.
  revert h. induction rs as [|r rs IH]; intros h.
  - cbn. by rewrite string_app_nil_r.
  - cbn [fold_left]. rewrite IH. unfold Sha1.update.
    rewrite string_app_assoc. f_equal. destruct rs as [|r' rs]; [|done].
    cbn. by rewrite string_app_nil_r.
Qed.

(** X14: the hash is fed the name and the representations of the
    positional arguments one after the other, with nothing between them:
    two calls with the same keyword arguments whose names followed by
    their positional representations concatenate to the same string have
    the same key, so they share one cached result. *)
Theorem ckey_ignores_boundaries (fn fn' : callable) args args' kwargs :
  __name__ fn ++ String.concat "" (repr <$> args)
  = __name__ fn' ++ String.concat "" (repr <$> args') ->
  ckey_of repr fn args kwargs = ckey_of repr fn' args' kwargs.
Proof.
  intros Heq. unfold ckey_of. do 2 f_equal.
  rewrite !(fold_left_fmap (fun h r => Sha1.update h r) repr).
  by rewrite !fold_update_concat.
Qed.

End MoreProperties.

(** ** The access-time key *)

(** X15: the key the wrapper writes the access time under (line 53) is
    recognised by the suffix test of [clear] and [_stats], and the split at
    the last colon (line 72) gives back the key of the value, whatever
    characters that key has; two keys never share an access-time key. *)
Theorem atime_key_round_trip (ckey : string) :
  endswith (atime_key ckey) ":atime" = true /\
  rsplit1_head ":" (atime_key ckey) = ckey /\
  atime_key ckey <> ckey /\
  (forall ckey', atime_key ckey = atime_key ckey' -> ckey = ckey').
Proof.
  split; [apply endswith_app|]. split; [apply rsplit1_head_atime|]. split.
  - intros Heq. apply (f_equal String.length) in Heq.
    unfold atime_key in Heq. rewrite string_length_app in Heq. cbn in Heq. lia.
  - intros ckey'. apply atime_key_inj.
Qed.

(** ** The further properties at the client [square] *)

Lemma stats_extremes_witness :
  reachable (E:=string) Client.repr Client.other_lt Client.s2 /\
  exists num oldest newest,
    _stats (E:=string) Client.other_lt 1000000 Client.s2
    = (Ok (num, PyNum oldest, PyNum newest), Client.s2) /\
    oldest <= 1000000 /\ 0 <= newest.
Proof.
  assert (Hreach : reachable (E:=string) Client.repr Client.other_lt Client.s2)
    by (exists 0%nat, Client.session; reflexivity).
  split; [exact Hreach|].
  destruct (stats_extremes Client.repr Client.other_lt 1000000 Client.s2 Hreach)
    as (num & o & n & Heq & Ho & Hn & _).
  exists num, o, n. split; [exact Heq|]. split; [exact Ho|exact Hn].
Defined.

Lemma main_rejects_witness :
  (length (A:=string) [] <> 1%nat /\
   _main (E:=string) Client.other_lt ["percache.py"] Client.files 7 7 0%nat
   = (["Usage: percache.py CACHEFILE"], Raise (SystemExit 1))) /\
  (Client.files !! "missing.db" = None /\
   _main (E:=string) Client.other_lt ["percache.py"; "missing.db"] Client.files
         7 7 0%nat
   = (["no such cache file"], Raise (SystemExit 1))).
Proof.
  assert (Hlen : length (A:=string) [] <> 1%nat) by (cbn; lia).
  assert (Hnone : Client.files !! "missing.db" = None) by (vm_compute; reflexivity).
  split.
  - split; [exact Hlen|].
    exact (proj1 (main_rejects (E:=string) Client.other_lt "percache.py" []
                    Client.files 7 7 0%nat) Hlen).
  - split; [exact Hnone|].
    exact (proj2 (main_rejects (E:=string) Client.other_lt "percache.py"
                    ["missing.db"] Client.files 7 7 0%nat)
                 "missing.db" eq_refl Hnone).
Defined.

Lemma main_reports_witness :
  reachable (E:=string) Client.repr Client.other_lt Client.s2 /\
  Client.files !! "cache.db" = Some (shelf Client.s2) /\
  exists oldest,
    oldest <= 1000000 /\
    (_main (E:=string) Client.other_lt ["percache.py"; "cache.db"] Client.files
           1000000 1000000 0%nat).2 = Ok tt.
Proof.
  assert (Hreach : reachable (E:=string) Client.repr Client.other_lt Client.s2)
    by (exists 0%nat, Client.session; reflexivity).
  assert (Hfile : Client.files !! "cache.db" = Some (shelf Client.s2))
    by (vm_compute; reflexivity).
  split; [exact Hreach|]. split; [exact Hfile|].
  destruct (main_reports Client.repr Client.other_lt "percache.py" "cache.db"
              Client.files 1000000 1000000 0%nat Client.s2 Hreach Hfile)
    as (o & Ho & _ & _ & Hmain).
  exists o. split; [exact Ho|]. rewrite Hmain. reflexivity.
Defined.





Lemma clear_missing_value_raises_witness :
  0 < 1 /\
  ({[ atime_key "x" := PyNum 0 ]} : gmap string (pyobj Empty_set)) !! atime_key "x"
  = Some (PyNum 0) /\
  0 < 100 - 1 /\
  ({[ atime_key "x" := PyNum 0 ]} : gmap string (pyobj Empty_set)) !! "x" = None /\
  exists k, (clear (E:=string) Client.other_lt 1 100
               (State {[ atime_key "x" := PyNum 0 ]} 0%nat 0%nat)).1
            = Raise (KeyError k).
Proof.
  assert (Hpos : 0 < 1) by lia.
  assert (Ht : ({[ atime_key "x" := PyNum 0 ]} : gmap string (pyobj Empty_set))
               !! atime_key "x" = Some (PyNum 0)) by (vm_compute; reflexivity).
  assert (Hlt : 0 < 100 - 1) by lia.
  assert (Hnone : ({[ atime_key "x" := PyNum 0 ]} : gmap string (pyobj Empty_set))
                  !! "x" = None) by (vm_compute; reflexivity).
  split; [exact Hpos|]. split; [exact Ht|]. split; [exact Hlt|].
  split; [exact Hnone|].
  exact (clear_missing_value_raises (W:=nat) (E:=string) Client.other_lt 1 100
           (State {[ atime_key "x" := PyNum 0 ]} 0%nat 0%nat) "x" 0
           Hpos Ht Hlt Hnone).
Defined.

Lemma clear_again_is_noop_witness :
  reachable (E:=string) Client.repr Client.other_lt Client.s2 /\
  0 < 500 /\ 0 < 600 /\ 900050 - 600 <= 900100 - 500 /\
  clear (E:=string) Client.other_lt 600 900050
        (clear (E:=string) Client.other_lt 500 900100 Client.s2).2
  = (Ok tt, (clear (E:=string) Client.other_lt 500 900100 Client.s2).2).
Proof.
  assert (Hreach : reachable (E:=string) Client.repr Client.other_lt Client.s2)
    by (exists 0%nat, Client.session; reflexivity).
  assert (H1 : 0 < 500) by lia. assert (H2 : 0 < 600) by lia.
  assert (H3 : 900050 - 600 <= 900100 - 500) by lia.
  split; [exact Hreach|]. split; [exact H1|]. split; [exact H2|].
  split; [exact H3|].
  exact (clear_again_is_noop Client.repr Client.other_lt 500 900100 600 900050
           Client.s2 Hreach H1 H2 H3).
Defined.

Lemma clear_bounds_oldest_witness :
  reachable (E:=string) Client.repr Client.other_lt Client.s2 /\
  0 < 500 /\ 900100 - 500 <= 900100 /\
  exists num oldest newest,
    (_stats (E:=string) Client.other_lt 900100
            (clear (E:=string) Client.other_lt 500 900100 Client.s2).2).1
    = Ok (num, PyNum oldest, PyNum newest) /\
    900100 - 500 <= oldest.
Proof.
  assert (Hreach : reachable (E:=string) Client.repr Client.other_lt Client.s2)
    by (exists 0%nat, Client.session; reflexivity).
  assert (H1 : 0 < 500) by lia.
  assert (H2 : 900100 - 500 <= 900100) by lia.
  split; [exact Hreach|]. split; [exact H1|]. split; [exact H2|].
  exact (clear_bounds_oldest Client.repr Client.other_lt 500 900100 900100
           Client.s2 Hreach H1 H2).
Defined.

Lemma evicted_is_recomputed_witness :
  reachable (E:=string) Client.repr Client.other_lt Client.s2 /\
  shelf Client.s2 !! atime_key (ckey_of Client.repr Client.square [4] [])
  = Some (PyNum 100) /\
  100 < 900100 - 500 /\
  __call__ Client.square [4] [] (world Client.s2) = (inr (PyNum 16), 3%nat) /\
  (wrapper Client.repr Client.square [4] [] 900200
           (clear (E:=string) Client.other_lt 500 900100 Client.s2).2).1
  = Ok (PyNum 16).
Proof.
  assert (Hreach : reachable (E:=string) Client.repr Client.other_lt Client.s2)
    by (exists 0%nat, Client.session; reflexivity).
  assert (Ht : shelf Client.s2 !! atime_key (ckey_of Client.repr Client.square [4] [])
               = Some (PyNum 100)) by (vm_compute; reflexivity).
  assert (Hlt : 100 < 900100 - 500) by lia.
  assert (Hcall : __call__ Client.square [4] [] (world Client.s2)
                  = (inr (PyNum 16), 3%nat)) by (vm_compute; reflexivity).
  split; [exact Hreach|]. split; [exact Ht|]. split; [exact Hlt|].
  split; [exact Hcall|].
  rewrite (evicted_is_recomputed Client.repr Client.other_lt Client.square [4] []
             500 900100 900200 Client.s2 (PyNum 16) 3%nat Hreach
             (or_intror (ex_intro _ 100 (conj Ht Hlt))) Hcall).
  reflexivity.
Defined.

Lemma ckey_ignores_boundaries_witness :
  __name__ Client.square ++ String.concat "" (Client.repr <$> [1; 23])
  = __name__ Client.square ++ String.concat "" (Client.repr <$> [12; 3]) /\
  ckey_of Client.repr Client.square [1; 23] []
  = ckey_of Client.repr Client.square [12; 3] [].
Proof.
  assert (Heq : __name__ Client.square ++ String.concat "" (Client.repr <$> [1; 23])
                = __name__ Client.square
                  ++ String.concat "" (Client.repr <$> [12; 3]))
    by (vm_compute; reflexivity).
  split; [exact Heq|].
  exact (ckey_ignores_boundaries Client.repr Client.square Client.square
           [1; 23] [12; 3] [] Heq).
Defined.

Lemma atime_key_round_trip_witness :
  atime_key "a:b" = atime_key "a:b" /\
  rsplit1_head ":" (atime_key "a:b") = "a:b".
Proof.
  split; [reflexivity|].
  exact (proj1 (proj2 (atime_key_round_trip "a:b"))).
Defined.
